(** * bb_mini_scales: the MiniScale driver and its CSV logger

    A shallow embedding of [m5stack_mini_scale.py] (the I2C driver of the
    M5Stack Unit MiniScale) and of [mini_scale_logger.py] (its file
    helpers and the sampling loop of [main], with the button-triggered
    tare), followed by the properties of the two.

    Python values are modelled as follows.
    - [int] is [Z]; [&] is [Z.land].
    - [float] is Rocq's primitive binary64 [float], the same format with the
      same rounding as CPython's.
    - [str] is a list of Unicode code points ([pystr]); [bytes] is a list of
      [Z] in [0, 256).
    - An exception is an [outcome] other than [Ret].
    - The I2C bus, the files and everything the program does to them live in
      a [world] that the code threads through a state-and-exception monad.

    Left out: [set_gap] and [get_weight_str] of the driver and its context
    manager; of the logger, the parsing of the arguments, the start-up
    configuration of the device and the closing of the file and of the bus
    on the way out; the text of the console messages; failures of the file
    system, and of the operating system's sleep once [time.sleep] has
    accepted the time (a deadline beyond the range of the system clock,
    some 292 years after start-up). *)

From Stdlib Require Import String Ascii DecimalString.
From Stdlib Require Import ZArith NArith List Bool Lia Floats.
Import ListNotations.

Open Scope Z_scope.

(* ================================================================== *)
(** * Python values *)

Module Py.

(** A [str]: its code points, in order. *)
Definition pystr := list N.

(** An ASCII literal of the source, character by character. *)
Definition lit (s : string) : pystr :=
  map N_of_ascii (list_ascii_of_string s).

(** The exceptions the modelled code can meet. *)
Inductive exn :=
| OSError            (* a bus transaction that did not complete *)
| ValueError
| IndexError
| OverflowError
| ZeroDivisionError
| StructError.       (* struct.error *)

(** What running a piece of code gives: a value, or a raised exception. *)
Inductive outcome (A : Type) :=
| Ret (a : A)
| Raise (e : exn).
Arguments Ret {A} a.
Arguments Raise {A} e.

Definition obind {A B} (o : outcome A) (k : A -> outcome B) : outcome B :=
  match o with
  | Ret a => k a
  | Raise e => Raise e
  end.

(** ** Strings *)

Fixpoint str_eqb (s t : pystr) : bool :=
  match s, t with
  | [], [] => true
  | a :: s', b :: t' => (a =? b)%N && str_eqb s' t'
  | _, _ => false
  end.

(** [s.startswith(p)]. *)
Fixpoint startswith (p s : pystr) : bool :=
  match p, s with
  | [], _ => true
  | a :: p', b :: s' => (a =? b)%N && startswith p' s'
  | _ :: _, [] => false
  end.

(** [s.endswith(p)] for a one-character [p]. *)
Definition endswith_char (c : N) (s : pystr) : bool :=
  match rev s with
  | b :: _ => (b =? c)%N
  | [] => false
  end.

(** [needle in hay], on strings: [needle] occurs somewhere in [hay]. *)
Fixpoint contains (needle hay : pystr) : bool :=
  startswith needle hay ||
  match hay with
  | [] => false
  | _ :: rest => contains needle rest
  end.

(** [sep.join(parts)]. *)
Fixpoint join (sep : pystr) (parts : list pystr) : pystr :=
  match parts with
  | [] => []
  | [p] => p
  | p :: rest => p ++ sep ++ join sep rest
  end.

(** [str(n)] of an [int]. *)
Definition str_of_int (n : Z) : pystr :=
  lit (NilZero.string_of_int (Z.to_int n)).

(** ** Bytes and integers *)

(** [b[i]] on a sequence: [IndexError] out of range (negative indices,
    which count from the end in Python, are not used by the code). *)
Definition index {A} (l : list A) (i : nat) : outcome A :=
  match nth_error l i with
  | Some x => Ret x
  | None => Raise IndexError
  end.

(** [l[i] = v] on a list: [IndexError] out of range. *)
Fixpoint setitem {A} (l : list A) (i : nat) (v : A) : outcome (list A) :=
  match l, i with
  | [], _ => Raise IndexError
  | _ :: rest, O => Ret (v :: rest)
  | x :: rest, S j => obind (setitem rest j v) (fun r => Ret (x :: r))
  end.

Definition is_byte (v : Z) : bool := (0 <=? v) && (v <? 256).

(** [bytes(data)] of a list of ints: [ValueError] unless every one of
    them is in [range(256)]. *)
Definition bytes_of (data : list Z) : outcome (list Z) :=
  if forallb is_byte data then Ret data else Raise ValueError.

(** [int.from_bytes(b, "little")]. *)
Fixpoint from_bytes_unsigned (b : list Z) : Z :=
  match b with
  | [] => 0
  | x :: rest => x + 256 * from_bytes_unsigned rest
  end.

(** [int.from_bytes(b, "little", signed=True)]: two's complement on
    [8 * len(b)] bits. *)
Definition from_bytes_signed (b : list Z) : Z :=
  let u := from_bytes_unsigned b in
  let bits := 8 * Z.of_nat (length b) in
  if bits =? 0 then 0
  else if u <? 2 ^ (bits - 1) then u else u - 2 ^ bits.

(** ** Floats *)

(** The binary64 nearest to an integer (ties to even; past the largest
    finite float it is an infinity). *)
Definition Z2float (z : Z) : float :=
  SF2Prim (binary_normalize prec emax z 0 false).

(** The least magnitude that rounds past the largest finite binary64:
    halfway between [2^1024 - 2^971] and [2^1024]. *)
Definition float_overflow_bound : Z := 2 ^ 1024 - 2 ^ 970.

(** An [int] converted to [float], as the arithmetic operators do it:
    correctly rounded, [OverflowError] when no finite float is near. *)
Definition int_to_float (z : Z) : outcome float :=
  if float_overflow_bound <=? Z.abs z then Raise OverflowError
  else Ret (Z2float z).

(** [x / y] on floats. *)
Definition float_truediv (x y : float) : outcome float :=
  if (y =? 0)%float then Raise ZeroDivisionError else Ret (x / y)%float.

(** [n / y] for an [int] [n] and a [float] [y]: the int is converted
    first. *)
Definition int_truediv_float (n : Z) (y : float) : outcome float :=
  obind (int_to_float n) (fun x => float_truediv x y).

Definition with_sign (neg : bool) (x : float) : float :=
  if neg then (- x)%float else x.

(** [struct.unpack("<f", b)[0]]: the four bytes read as a little-endian
    IEEE-754 binary32, widened (exactly) to a [float]. *)
Definition unpack_f32 (b : list Z) : outcome float :=
  if negb (length b =? 4)%nat then Raise StructError
  else
    let u := from_bytes_unsigned b in
    let neg := Z.testbit u 31 in
    let e := Z.land (Z.shiftr u 23) 255 in
    let f := Z.land u (2 ^ 23 - 1) in
    Ret (if e =? 255 then
           (if f =? 0 then with_sign neg infinity else nan)
         else if e =? 0 then
           with_sign neg (Z.ldexp (Z2float f) (-149))
         else
           with_sign neg (Z.ldexp (Z2float (2 ^ 23 + f)) (e - 150))).

(** The integer nearest to [m * 2^e], ties to even. *)
Definition round_half_even (m e : Z) : Z :=
  if 0 <=? e then m * 2 ^ e
  else
    let d := 2 ^ (- e) in
    let q := m / d in
    let r := m mod d in
    if 2 * r <? d then q
    else if d <? 2 * r then q + 1
    else if Z.even q then q else q + 1.

(** Three decimal digits, zero-padded. *)
Definition pad3 (n : Z) : pystr :=
  let s := str_of_int n in
  repeat 48%N (3 - length s) ++ s.

(** [format(x, ".3f")]: the decimal expansion of [x] correctly rounded
    to three places. *)
Definition format_3f (x : float) : pystr :=
  match Prim2SF x with
  | S754_nan => lit "nan"
  | S754_infinity s => (if s then lit "-" else []) ++ lit "inf"
  | S754_zero s => (if s then lit "-" else []) ++ lit "0.000"
  | S754_finite s m e =>
      let n := round_half_even (1000 * Z.pos m) e in
      (if s then lit "-" else []) ++
      str_of_int (n / 1000) ++ lit "." ++ pad3 (n mod 1000)
  end.

End Py.

Import Py.

(* ================================================================== *)
(** * The world the program runs in *)

(** What the device does with one bus transaction: it answers (a read
    with the bytes of the register, a write with nothing), or the
    transaction fails. *)
Inductive reply :=
| Nack
| Ack (data : list Z).

(** The console messages of the program, by kind. *)
Inductive message :=
| WarnReadFailed
| WarnButtonTareFailed
| InfoSample
| InfoButtonTare.

(** What the program does to the outside, in the order it does it. *)
Inductive event :=
| I2cRead (dev reg : Z) (n : nat)
| I2cWrite (dev reg : Z) (payload : list Z)
| FileWrite (path text : pystr)
| Slept (secs : float)
| Printed (m : message).

(** The state threaded through the code.
    - [addr] is the [addr] attribute of the one [MiniScale] object.
    - [bus reg] lists what the device will do with the successive
      transactions on register [reg]; once the list is used up the device
      no longer answers there.  A reply to a read of [n] bytes carries
      [n] bytes.
    - [fs path] is the text of the file at [path], empty for a file that
      does not exist yet (the logger opens its files in mode [a+], which
      creates them).
    - [trace] is what has been done so far, oldest first. *)
Record world := World {
  addr : Z;
  bus : Z -> list reply;
  fs : pystr -> pystr;
  trace : list event
}.

Definition log (e : event) (w : world) : world :=
  World (addr w) (bus w) (fs w) (trace w ++ [e]).

Definition set_addr (a : Z) (w : world) : world :=
  World a (bus w) (fs w) (trace w).

Definition set_bus (reg : Z) (q : list reply) (w : world) : world :=
  World (addr w) (fun r => if r =? reg then q else bus w r) (fs w) (trace w).

Definition set_file (path text : pystr) (w : world) : world :=
  World (addr w) (bus w)
        (fun p => if str_eqb p path then text else fs w p) (trace w).

(** Code that may read and change the world, and may raise. *)
Definition M (A : Type) : Type := world -> outcome A * world.

Definition ret {A} (a : A) : M A := fun w => (Ret a, w).

Definition raise {A} (e : exn) : M A := fun w => (Raise e, w).

Definition bind {A B} (m : M A) (k : A -> M B) : M B :=
  fun w =>
    match m w with
    | (Ret a, w') => k a w'
    | (Raise e, w') => (Raise e, w')
    end.

(** [try: body  except Exception as e: handler]. *)
Definition try_except {A} (body : M A) (handler : exn -> M A) : M A :=
  fun w =>
    match body w with
    | (Ret a, w') => (Ret a, w')
    | (Raise e, w') => handler e w'
    end.

(** A computation that does not touch the world. *)
Definition lift {A} (o : outcome A) : M A := fun w => (o, w).

Declare Scope py_scope.
Delimit Scope py_scope with py.
Notation "x <- m ;; k" := (bind m (fun x => k))
  (at level 61, m at next level, right associativity) : py_scope.
Notation "m ;; k" := (bind m (fun _ => k))
  (at level 61, right associativity) : py_scope.
Open Scope py_scope.

Definition emit (e : event) : M unit := fun w => (Ret tt, log e w).

(** What [time.sleep(secs)] does with a [float] before it sleeps
    (CPython 3.11, [time_sleep] and [pytime_from_double]): a NaN is a
    [ValueError]; the time is multiplied by [1e9] to nanoseconds, which
    must be within [-2^63, 2^63], or it is an [OverflowError]; and a
    count of nanoseconds below zero is a [ValueError].  The rounding of
    the nanoseconds to a whole number, away from zero, changes none of
    these tests.  At [2^63] itself the conversion to a 64-bit count
    wraps to a negative one. *)
Definition sleep_check (secs : float) : outcome unit :=
  if is_nan secs then Raise ValueError
  else
    let ns := (secs * 1e9)%float in
    if ((ns <? - 0x1p63) || (0x1p63 <? ns))%float then Raise OverflowError
    else if ((ns <? 0) || (ns =? 0x1p63))%float then Raise ValueError
    else Ret tt.

(** [time.sleep(secs)]: when the time is accepted, the sleep takes
    place. *)
Definition sleep (secs : float) : M unit :=
  lift (sleep_check secs) ;; emit (Slept secs).

(** [print(...)]. *)
Definition print (m : message) : M unit := emit (Printed m).

(** ** The bus (smbus2) *)

(** One transaction on register [reg]: the next scripted reply is used
    up. *)
Definition transact (reg : Z) : M (list Z) :=
  fun w =>
    match bus w reg with
    | Ack data :: rest => (Ret data, set_bus reg rest w)
    | Nack :: rest => (Raise OSError, set_bus reg rest w)
    | [] => (Raise OSError, w)
    end.

(** [SMBus.read_i2c_block_data(dev, reg, n)]. *)
Definition read_i2c_block_data (dev reg : Z) (n : nat) : M (list Z) :=
  emit (I2cRead dev reg n) ;; transact reg.

(** [SMBus.write_i2c_block_data(dev, reg, payload)]. *)
Definition write_i2c_block_data (dev reg : Z) (payload : list Z) : M unit :=
  emit (I2cWrite dev reg payload) ;; transact reg ;; ret tt.

(* ================================================================== *)
(** * m5stack_mini_scale.py *)

Module MiniScale.

Definition DEFAULT_BUS : Z := 1.
Definition DEFAULT_ADDR : Z := 0x26.

Definition REG_RAW_ADC : Z := 0x00.
Definition REG_WEIGHT_F32 : Z := 0x10.
Definition REG_BUTTON : Z := 0x20.
Definition REG_LED_RGB : Z := 0x30.
Definition REG_GAP_F32 : Z := 0x40.
Definition REG_OFFSET_TARE : Z := 0x50.
Definition REG_WEIGHT_X100_I32 : Z := 0x60.
Definition REG_WEIGHT_STR : Z := 0x70.
Definition REG_FILTERS : Z := 0x80.
Definition REG_FW_VERSION : Z := 0xFE.
Definition REG_I2C_ADDRESS : Z := 0xFF.

(** [self.addr], read and assigned. *)
Definition self_addr : M Z := fun w => (Ret (addr w), w).

Definition assign_addr (a : Z) : M unit := fun w => (Ret tt, set_addr a w).

Definition _read_block (reg : Z) (n : nat) : M (list Z) :=
  a <- self_addr ;;
  data <- read_i2c_block_data a reg n ;;
  lift (bytes_of data).

Definition _write_block (reg : Z) (data : list Z) : M unit :=
  let payload := data in
  a <- self_addr ;;
  write_i2c_block_data a reg payload.

Definition get_raw_adc : M Z :=
  b <- _read_block REG_RAW_ADC 4 ;;
  ret (from_bytes_signed b).

Definition get_weight_float : M float :=
  b <- _read_block REG_WEIGHT_F32 4 ;;
  lift (unpack_f32 b).

Definition get_weight_int : M float :=
  b <- _read_block REG_WEIGHT_X100_I32 4 ;;
  let val := from_bytes_signed b in
  lift (int_truediv_float val 100).

(** [prefer] is ["float"] or ["int"]. *)
Definition get_weight (prefer : pystr) : M float :=
  if str_eqb prefer (lit "int") then get_weight_int else get_weight_float.

Definition tare : M unit :=
  _write_block REG_OFFSET_TARE [1].

Definition get_gap : M float :=
  b <- _read_block REG_GAP_F32 4 ;;
  lift (unpack_f32 b).

(** [compute_gap_from_points(adc_0g, adc_w, weight_g)], a static method:
    it does not touch the world. *)
Definition compute_gap_from_points (adc_0g adc_w : Z) (weight_g : float)
  : outcome float :=
  if (weight_g =? 0)%float then Raise ValueError
  else int_truediv_float (adc_0g - adc_w) weight_g.

Definition set_led (r g b : Z) : M unit :=
  _write_block REG_LED_RGB [Z.land r 0xFF; Z.land g 0xFF; Z.land b 0xFF].

Definition get_led : M (Z * Z * Z) :=
  data <- _read_block REG_LED_RGB 3 ;;
  r <- lift (index data 0) ;;
  g <- lift (index data 1) ;;
  b <- lift (index data 2) ;;
  ret (r, g, b).

Definition get_button_pressed : M bool :=
  b <- _read_block REG_BUTTON 1 ;;
  v <- lift (index b 0) ;;
  ret (v =? 0).

(** One of the three optional arguments of [set_filters]: when it is not
    [None], slot [i] of [cur] becomes [int(arg) & 0xFF]. *)
Definition overwrite (arg : option Z) (i : nat) (cur : list Z)
  : outcome (list Z) :=
  match arg with
  | Some v => setitem cur i (Z.land v 0xFF)
  | None => Ret cur
  end.

Definition set_filters (lp_enabled avg_level ema_alpha : option Z) : M unit :=
  cur <- _read_block REG_FILTERS 3 ;;
  cur <- lift (overwrite lp_enabled 0 cur) ;;
  cur <- lift (overwrite avg_level 1 cur) ;;
  cur <- lift (overwrite ema_alpha 2 cur) ;;
  _write_block REG_FILTERS cur.

Definition get_filters : M (Z * Z * Z) :=
  b <- _read_block REG_FILTERS 3 ;;
  b0 <- lift (index b 0) ;;
  b1 <- lift (index b 1) ;;
  b2 <- lift (index b 2) ;;
  ret (b0, b1, b2).

Definition get_fw_version : M Z :=
  b <- _read_block REG_FW_VERSION 1 ;;
  lift (index b 0).

Definition get_i2c_address : M Z :=
  b <- _read_block REG_I2C_ADDRESS 1 ;;
  lift (index b 0).

Definition set_i2c_address (new_addr : Z) : M Z :=
  _write_block REG_I2C_ADDRESS [Z.land new_addr 0x7F] ;;
  assign_addr (Z.land new_addr 0x7F) ;;
  self_addr.

End MiniScale.

(* ================================================================== *)
(** * mini_scale_logger.py *)

Import MiniScale.

(** ** Files *)

(** The text of the file, as [fp.seek(0)] followed by reads sees it. *)
Definition file_text (path : pystr) : M pystr :=
  fun w => (Ret (fs w path), w).

(** A write through a handle opened in mode [a+], flushed: the text goes
    to the end of the file.  The logger flushes after every row it
    writes, so the write and its flush are one step. *)
Definition file_append (path text : pystr) : M unit :=
  fun w => (Ret tt, log (FileWrite path text)
                        (set_file path (fs w path ++ text) w)).

(** [fp.readline()] from the start of a file opened with [newline=""]:
    the first line with its ending, which is a line feed, a carriage
    return, or the two in a row, returned as it is. *)
Fixpoint readline (text : pystr) : pystr :=
  match text with
  | [] => []
  | c :: rest =>
      if (c =? 10)%N then [c]
      else if (c =? 13)%N then
        match rest with
        | d :: _ => if (d =? 10)%N then [c; d] else [c]
        | [] => [c]
        end
      else c :: readline rest
  end.

(** ** csv.writer, default dialect *)

Definition comma : N := 44.
Definition dquote : N := 34.

(** A field is quoted when it holds the delimiter, the quote character
    or a character of the line terminator. *)
Definition needs_quotes (field : pystr) : bool :=
  existsb (fun c => (c =? comma) || (c =? dquote) || (c =? 13) || (c =? 10))%N
          field.

Definition csv_field (field : pystr) : pystr :=
  if needs_quotes field then
    [dquote] ++
    flat_map (fun c => if (c =? dquote)%N then [dquote; dquote] else [c]) field
    ++ [dquote]
  else field.

Definition csv_line (row : list pystr) : pystr :=
  join [comma] (map csv_field row) ++ [13; 10]%N.

(** [writer.writerow(row)] and the [fp.flush()] that follows it. *)
Definition writerow (fp : pystr) (row : list pystr) : M unit :=
  file_append fp (csv_line row).

Section Logger.

(** [str.isalnum] on the code points from 256 up: CPython's Unicode
    database, which is no part of the repository. *)
Variable isalnum_wide : N -> bool.

(** ** Constants *)

(** 0.05 and 0.30, as the binary64 values the literals denote. *)
Definition BTN_SAMPLE_SECS : float := 0x1.999999999999ap-5.
Definition BTN_AFTER_TARE_SLEEP : float := 0x1.3333333333333p-2.
Definition BTN_WAIT_RELEASE : bool := true.

(** ** Helpers *)

Definition in_range (lo hi c : N) : bool := ((lo <=? c) && (c <=? hi))%N.

(** [ch.isalnum()]: the ASCII digits and letters; in Latin-1 the letters
    (all of U+00C0..U+00FF but the two operators), the ordinal
    indicators and the micro sign, the superscript digits and the
    vulgar fractions; beyond, what the Unicode database says. *)
Definition isalnum (c : N) : bool :=
  if (c <? 128)%N then
    in_range 48 57 c || in_range 65 90 c || in_range 97 122 c
  else if (c <? 256)%N then
    (c =? 170)%N || (c =? 181)%N || (c =? 186)%N ||
    (c =? 178)%N || (c =? 179)%N || (c =? 185)%N ||
    in_range 188 190 c ||
    (in_range 192 255 c && negb (c =? 215)%N && negb (c =? 247)%N)
  else isalnum_wide c.

Definition underscore : N := 95.

Definition sanitize_tag (tag : pystr) : pystr :=
  map (fun ch => if isalnum ch || contains [ch] (lit "-_") then ch
                 else underscore)
      tag.

(** [os.path.join(a, b)] (posixpath). *)
Definition path_join (a b : pystr) : pystr :=
  if startswith (lit "/") b then b
  else if (length a =? 0)%nat || endswith_char 47 a then a ++ b
  else a ++ lit "/" ++ b.

(** The local [base] of [today_path]; [day] is what
    [datetime.now().strftime("%Y-%m-%d")] gave. *)
Definition base_name (name day : pystr) : pystr :=
  let tag := sanitize_tag name in
  lit "weight_data_" ++
  (if (length tag =? 0)%nat then [] else tag ++ lit "_") ++
  day ++ lit ".csv".

Definition today_path (data_dir name day : pystr) : pystr :=
  path_join data_dir (base_name name day).

Definition HEADER : pystr := lit "Time,Weight_g,Weight_x100_g,RawADC".

Definition HEADER_ROW : list pystr :=
  [lit "Time"; lit "Weight_g"; lit "Weight_x100_g"; lit "RawADC"].

(** [ensure_header(fp, writer)]; the handle is named by its path. *)
Definition ensure_header (fp : pystr) : M unit :=
  text <- file_text fp ;;
  let needs := (length text =? 0)%nat in
  let needs :=
    if negb needs then negb (contains HEADER (readline text)) else needs in
  if needs then writerow fp HEADER_ROW else ret tt.

(** ** main *)

(** The parsed arguments the loop reads. *)
Record args := Args {
  data_dir : pystr;
  name : pystr;
  interval : float;
  sign : float;
  print_flag : bool
}.

(** What the clock says during one turn of the loop: the date and the
    timestamp of [datetime.now()], and [time.time()]. *)
Record clock := Clock {
  day : pystr;
  ts : pystr;
  now : float
}.

(** The locals that live across turns of the loop. *)
Record locals := Locals {
  current_path : pystr;
  prev_pressed : bool;
  last_sample_time : float
}.

(** The three reads inside the [try]. *)
Definition read_weights (a : args) : M (float * float * Z) :=
  f <- get_weight_float ;;
  let g_f32 := (f * sign a)%float in
  i <- get_weight_int ;;
  let g_i := (i * sign a)%float in
  adc <- get_raw_adc ;;
  ret (g_f32, g_i, adc).

Definition sample (a : args) : M (float * float * Z) :=
  try_except (read_weights a)
             (fun _ => print WarnReadFailed ;; ret (nan, nan, -1)).

(** The inner [while True]: poll until the button reads released or the
    poll fails, sleeping between polls.  Every turn uses up one reply of
    the button register, so [fuel] beyond their number is never used. *)
Fixpoint wait_release_loop (fuel : nat) : M unit :=
  match fuel with
  | O => ret tt
  | S fuel' =>
      stop <- try_except (pressed <- get_button_pressed ;; ret (negb pressed))
                         (fun _ => ret true) ;;
      if (stop : bool) then ret tt
      else sleep BTN_SAMPLE_SECS ;; wait_release_loop fuel'
  end.

Definition wait_release : M unit :=
  fun w => wait_release_loop (S (length (bus w REG_BUTTON))) w.

(** The button-triggered tare of one turn of the loop. *)
Definition button_tare (a : args) (t : float) (st : locals) : M locals :=
  if (BTN_SAMPLE_SECS <=? t - last_sample_time st)%float then
    pressed <- try_except get_button_pressed (fun _ => ret false) ;;
    (if (pressed : bool) && negb (prev_pressed st) then
       try_except
         (tare ;;
          (if print_flag a then print InfoButtonTare else ret tt) ;;
          sleep BTN_AFTER_TARE_SLEEP ;;
          (if BTN_WAIT_RELEASE then wait_release else ret tt))
         (fun _ => print WarnButtonTareFailed)
     else ret tt) ;;
    ret (Locals (current_path st) pressed t)
  else ret st.

(** [max(0.0, x)]. *)
Definition max0 (x : float) : float :=
  if (0 <? x)%float then x else 0%float.

(** The rotation at the top of a turn of the loop: when the path of
    the day is not the current one, the file of the day is opened and
    given its header. *)
Definition rotate (a : args) (c : clock) (st : locals) : M locals :=
  let new_path := today_path (data_dir a) (name a) (day c) in
  if negb (str_eqb new_path (current_path st)) then
    ensure_header new_path ;;
    ret (Locals new_path (prev_pressed st) (last_sample_time st))
  else ret st.

(** One turn of the [while not _stop] loop. *)
Definition tick (a : args) (c : clock) (st : locals) : M locals :=
  st <- rotate a c st ;;
  s <- sample a ;;
  let '(g_f32, g_i, adc) := s in
  writerow (current_path st)
           [ts c; format_3f g_f32; format_3f g_i; str_of_int adc] ;;
  (if print_flag a then print InfoSample else ret tt) ;;
  st <- button_tare a (now c) st ;;
  sleep (max0 (interval a - BTN_SAMPLE_SECS)) ;;
  ret st.

(** The loop: one turn per clock reading; the stop flag is found set
    when the readings are used up. *)
Fixpoint main_loop (a : args) (cs : list clock) (st : locals) : M locals :=
  match cs with
  | [] => ret st
  | c :: rest => st' <- tick a c st ;; main_loop a rest st'
  end.

(** [main] from the opening of the CSV file on: [day0] is the date at
    startup. *)
Definition run (a : args) (day0 : pystr) (cs : list clock) : M locals :=
  let path := today_path (data_dir a) (name a) day0 in
  ensure_header path ;;
  main_loop a cs (Locals path false 0).

End Logger.

(* ================================================================== *)
(** * The vocabulary of the properties *)

(** ** Worlds *)

(** The world [w] in which the next transaction on [reg] gets reply
    [r]. *)
Definition answering (reg : Z) (r : reply) (w : world) : world :=
  set_bus reg (r :: bus w reg) w.

(** The next transaction on [reg] fails: the device does not answer. *)
Definition nacked (reg : Z) (w : world) : Prop :=
  match bus w reg with
  | Ack _ :: _ => False
  | _ => True
  end.

(** Code that never lets an exception out. *)
Definition total {A} (m : M A) : Prop :=
  forall w, exists a, fst (m w) = Ret a.

(** Code that keeps the relation [P] between the world it starts in and
    the world it leaves. *)
Definition framed (P : world -> world -> Prop) {A} (m : M A) : Prop :=
  forall w, P w (snd (m w)).

(** The files are as they were. *)
Definition same_files (w w' : world) : Prop := fs w' = fs w.

(** Two worlds with the same device in the same state: they may differ
    in their files and in what has been done so far. *)
Definition same_device (w w' : world) : Prop :=
  bus w = bus w' /\ addr w = addr w'.

(** Code that sees of the world the device only: from two worlds with
    the same device it gives the same outcome and leaves the same
    device. *)
Definition device_only {A} (m : M A) : Prop :=
  forall w w',
    same_device w w' ->
    fst (m w) = fst (m w') /\ same_device (snd (m w)) (snd (m w')).

(** ** The driver *)

(** The range of the raw count and of the scaled weight. *)
Definition is_int32 (z : Z) : Prop := - 2 ^ 31 <= z < 2 ^ 31.

(** What [set_filters] puts in a slot: the old byte when the argument is
    [None]. *)
Definition slot (arg : option Z) (old : Z) : Z :=
  match arg with
  | Some v => Z.land v 0xFF
  | None => old
  end.

(** ** File names *)

(** The characters of [[A-Za-z0-9_-]]. *)
Definition in_safe_set (c : N) : bool :=
  in_range 48 57 c || in_range 65 90 c || in_range 97 122 c
  || (c =? 95)%N || (c =? 45)%N.

(** Every character outside the safe set replaced by an underscore. *)
Definition spec_sanitize (tag : pystr) : pystr :=
  map (fun c => if in_safe_set c then c else underscore) tag.

(** [weight_data_{tag_}{YYYY-MM-DD}.csv], the tag part left out for an
    empty tag. *)
Definition spec_file_name (tag day : pystr) : pystr :=
  lit "weight_data_" ++
  match tag with
  | [] => []
  | _ :: _ => spec_sanitize tag ++ lit "_"
  end ++
  day ++ lit ".csv".

(** What [sanitize_tag] keeps. *)
Definition kept (isalnum_wide : N -> bool) (c : N) : bool :=
  isalnum isalnum_wide c || (c =? 45)%N || (c =? 95)%N.

(** ** Headers *)

(** The header as [csv.writer] writes it. *)
Definition HEADER_LINE : pystr := HEADER ++ [13; 10]%N.

(** [needle] occurs in [hay]. *)
Definition occurs (needle hay : pystr) : Prop :=
  exists before after, hay = before ++ needle ++ after.

(** The texts written to files, in order. *)
Fixpoint file_writes (t : list event) : list pystr :=
  match t with
  | [] => []
  | FileWrite _ text :: rest => text :: file_writes rest
  | _ :: rest => file_writes rest
  end.

(** The header lines [ensure_header] writes on a file that holds
    [text]. *)
Definition headers_written (text : pystr) : list pystr :=
  let fp := lit "log.csv" in
  file_writes
    (trace (snd (ensure_header fp (World 0 (fun _ => []) (fun _ => text) [])))).

(** The header rule read to the letter: one header when the file is
    empty or its first line does not start with the header text, none
    otherwise. *)
Definition header_by_prefix (text : pystr) : list pystr :=
  if (length text =? 0)%nat || negb (startswith HEADER (readline text))
  then [HEADER_LINE] else [].

(** ** Traces *)

Definition is_tare (e : event) : bool :=
  match e with
  | I2cWrite _ reg _ => reg =? MiniScale.REG_OFFSET_TARE
  | _ => false
  end.

(** The calls of [tare()] in a trace. *)
Definition tare_calls (t : list event) : nat := length (filter is_tare t).

Definition is_poll (e : event) : bool :=
  match e with
  | I2cRead _ reg _ => reg =? MiniScale.REG_BUTTON
  | _ => false
  end.

(** The polls of the button in a trace. *)
Definition poll_count (t : list event) : nat := length (filter is_poll t).

(** What a trace shows of the two cadences: the data rows written and
    the polls of the button, in order. *)
Inductive beat := Row | Poll.

Definition beat_of (e : event) : list beat :=
  match e with
  | FileWrite _ text => if str_eqb text HEADER_LINE then [] else [Row]
  | I2cRead _ reg _ => if reg =? MiniScale.REG_BUTTON then [Poll] else []
  | _ => []
  end.

Definition beats (t : list event) : list beat := flat_map beat_of t.

(** ** The button *)

(** A successful poll of the button: the register reads 0 when it is
    pressed, 1 when it is not. *)
Definition poll_reply (pressed : bool) : reply :=
  if pressed then Ack [0] else Ack [1].

(** A reply to a poll that reads as pressed. *)
Definition reads_pressed (r : reply) : bool :=
  match r with
  | Ack (v :: _) => v =? 0
  | _ => false
  end.

(** The button is idle: no reply left on its register reads as
    pressed. *)
Definition idle (w : world) : Prop :=
  Forall (fun r => reads_pressed r = false) (bus w MiniScale.REG_BUTTON).

(** Code that neither polls the button nor uses up a reply of its
    register. *)
Definition calm (w w' : world) : Prop :=
  poll_count (trace w') = poll_count (trace w)
  /\ bus w' MiniScale.REG_BUTTON = bus w MiniScale.REG_BUTTON.

(** Code that calls no [tare()]. *)
Definition untared (w w' : world) : Prop :=
  tare_calls (trace w') = tare_calls (trace w).

(** The rising edges of a sequence of polls: the polls that read
    pressed right after one that read not pressed ([prev] is the
    reading before the first). *)
Fixpoint rising_edges (prev : bool) (presses : list bool) : nat :=
  match presses with
  | [] => 0
  | p :: rest =>
      (if p && negb prev then 1 else 0) + rising_edges p rest
  end.

(** ** A bench *)

(** A Unicode table with no alphanumeric character beyond Latin-1; the
    runs below use ASCII names only. *)
Definition no_wide : N -> bool := fun _ => false.

(** Default arguments: directory [data], no name tag, one sample a
    second, sign 1, no printing. *)
Definition bench_args : args := Args (lit "data") [] 1 1 false.

(** A device that answers the button polls with [polls], in order, and
    stops answering them after that; that reads a steady 25 g (float
    [25.0], scaled [2500], count [197121]) and acknowledges every tare,
    [n] times each. *)
Definition device (polls : list reply) (n : nat) : world :=
  World MiniScale.DEFAULT_ADDR
        (fun reg =>
           if reg =? MiniScale.REG_BUTTON then polls
           else if reg =? MiniScale.REG_OFFSET_TARE then repeat (Ack []) n
           else if reg =? MiniScale.REG_WEIGHT_F32
                then repeat (Ack [0; 0; 200; 65]) n
           else if reg =? MiniScale.REG_WEIGHT_X100_I32
                then repeat (Ack [196; 9; 0; 0]) n
           else if reg =? MiniScale.REG_RAW_ADC
                then repeat (Ack [1; 2; 3; 0]) n
           else [])
        (fun _ => [])
        [].

(** [n] turns of the loop on the same day, one second apart. *)
Definition seconds (n : nat) : list clock :=
  map (fun i => Clock (lit "2025-08-05") (lit "2025-08-05T12:00:00")
                      (1000 + Z2float (Z.of_nat i))%float)
      (seq 0 n).

(** The logger run for [n] turns against [device polls n]. *)
Definition bench (polls : list reply) (n : nat) : world :=
  snd (run no_wide bench_args (lit "2025-08-05") (seconds n) (device polls n)).

(** The tares the logger issues when its successive polls of the
    button read [presses]: one turn of the loop per poll is enough to
    use them all up. *)
Definition tares_for (presses : list bool) : nat :=
  tare_calls (trace (bench (map poll_reply presses) (length presses))).

(** ** Bytes on the bus *)

(** A block of bytes. *)
Definition all_bytes (b : list Z) : Prop := forallb is_byte b = true.

(** A call that is one read of [n] bytes of the register [reg] and
    nothing else: one transaction whatever comes of it, the other
    registers, the address and the files left alone, and the failure of
    the transaction let out as it is. *)
Definition reads_once {A} (g : M A) (reg : Z) (n : nat) : Prop :=
  forall w,
    let w' := snd (g w) in
    trace w' = trace w ++ [I2cRead (addr w) reg n]
    /\ addr w' = addr w
    /\ fs w' = fs w
    /\ (forall r, r <> reg -> bus w' r = bus w r)
    /\ (nacked reg w -> fst (g w) = Raise OSError).

(** ** Text *)

(** The text holds a line ending. *)
Definition has_line_end (text : pystr) : bool :=
  existsb (fun c => (c =? 10) || (c =? 13))%N text.

(** The characters of the weight and count cells of a row: the digits,
    the sign, the point, and the letters of [nan] and [inf]. *)
Definition cell_char (c : N) : bool :=
  in_range 48 57 c || (c =? 45)%N || (c =? 46)%N
  || (c =? 110)%N || (c =? 97)%N || (c =? 105)%N || (c =? 102)%N.

(** ** Pauses *)

(** What [time.sleep] accepts without a [ValueError]: a number that is
    not negative. *)
Definition valid_sleep (s : float) : bool :=
  negb (s <? 0)%float && negb (is_nan s).

(** ** What the loop does to the outside *)

(** The payload of a tare: the byte 1. *)
Definition tare_payload (payload : list Z) : bool :=
  match payload with
  | [v] => v =? 1
  | _ => false
  end.

(** What the button service does, on the device at [dev]: it reads the
    one byte of the button, writes the byte 1 to the tare register,
    sleeps for a time [time.sleep] accepts, and prints its two
    messages. *)
Definition button_event (dev : Z) (e : event) : bool :=
  match e with
  | I2cRead d reg n =>
      (d =? dev) && (reg =? MiniScale.REG_BUTTON) && (n =? 1)%nat
  | I2cWrite d reg payload =>
      (d =? dev) && (reg =? MiniScale.REG_OFFSET_TARE) && tare_payload payload
  | FileWrite _ _ => false
  | Slept s => valid_sleep s
  | Printed InfoButtonTare | Printed WarnButtonTareFailed => true
  | Printed _ => false
  end.


(** Code that keeps the address of the client and adds to the trace
    only events that [Q] allows on the device at that address. *)
Definition adds (Q : Z -> event -> bool) (w w' : world) : Prop :=
  addr w' = addr w
  /\ exists t, trace w' = trace w ++ t /\ forallb (Q (addr w)) t = true.

(** The warning of a failed read. *)
Definition is_read_warning (e : event) : bool :=
  match e with
  | Printed WarnReadFailed => true
  | _ => false
  end.

(** The header a turn of the loop writes to the file at [path], which
    holds [text], when [current] is the path of the open file: none
    unless the path has changed. *)
Definition turn_header (path current text : pystr) : pystr :=
  if str_eqb path current then [] else concat (headers_written text).

(** The paths of the days of a run. *)
Definition day_paths (isalnum_wide : N -> bool) (a : args) (cs : list clock)
  : list pystr :=
  map (fun c => today_path isalnum_wide (data_dir a) (name a) (day c)) cs.

(* ================================================================== *)
(** * Running the monad *)

Lemma bind_ret_run {A B} {m : M A} (k : A -> M B) {w w' : world} {a : A} :
  m w = (Ret a, w') -> bind m k w = k a w'.
Proof. intros H. unfold bind. now rewrite H. Qed.

Lemma bind_raise_run {A B} {m : M A} (k : A -> M B) {w w' : world} {e : exn} :
  m w = (Raise e, w') -> bind m k w = (Raise e, w').
Proof. intros H. unfold bind. now rewrite H. Qed.

(** What holds of the world after [m] and what follows it, from what
    holds after [m]. *)
Lemma bind_post {A B} (Q : world -> Prop) (m : M A) (k : A -> M B)
      (w : world) :
  (forall a w1, m w = (Ret a, w1) -> Q (snd (k a w1))) ->
  (forall e w1, m w = (Raise e, w1) -> Q w1) ->
  Q (snd (bind m k w)).
Proof.
  intros Hret Hraise. unfold bind.
  destruct (m w) as [[a | e] w1]; [eapply Hret | eapply Hraise];
    reflexivity.
Qed.

(** [time.sleep], run. *)
Lemma sleep_run (secs : float) (w : world) :
  sleep secs w
  = match sleep_check secs with
    | Ret _ => (Ret tt, log (Slept secs) w)
    | Raise e => (Raise e, w)
    end.
Proof.
  unfold sleep, bind, lift, emit.
  destruct (sleep_check secs) as [[] | e]; reflexivity.
Qed.

Lemma total_ret {A} (a : A) : total (ret a).
Proof. intros w. now exists a. Qed.

Lemma total_emit (e : event) : total (emit e).
Proof. intros w. now exists tt. Qed.

Lemma total_bind {A B} (m : M A) (k : A -> M B) :
  total m -> (forall a, total (k a)) -> total (bind m k).
Proof.
  intros Hm Hk w. unfold bind.
  destruct (Hm w) as [a Ha]. destruct (m w) as [o w1]. cbn in Ha. subst o.
  apply Hk.
Qed.

Lemma total_try {A} (body : M A) (handler : exn -> M A) :
  (forall e, total (handler e)) -> total (try_except body handler).
Proof.
  intros Hh w. unfold try_except.
  destruct (body w) as [[a | e] w1]; [now exists a | apply Hh].
Qed.

(** ** Frames: what a piece of code leaves as it is *)

Section Frame.

Import MiniScale.

Variable P : world -> world -> Prop.
Hypothesis P_refl : forall w, P w w.
Hypothesis P_trans : forall w1 w2 w3, P w1 w2 -> P w2 w3 -> P w1 w3.

Lemma framed_ret {A} (a : A) : framed P (ret a).
Proof. intros w. apply P_refl. Qed.

Lemma framed_lift {A} (o : outcome A) : framed P (lift o).
Proof. intros w. apply P_refl. Qed.

Lemma framed_self_addr : framed P self_addr.
Proof. intros w. apply P_refl. Qed.

Lemma framed_bind {A B} (m : M A) (k : A -> M B) :
  framed P m -> (forall a, framed P (k a)) -> framed P (bind m k).
Proof.
  intros Hm Hk w. unfold bind. specialize (Hm w).
  destruct (m w) as [[a | e] w1]; cbn in *; [| assumption].
  eapply P_trans; [eassumption | apply Hk].
Qed.

Lemma framed_try {A} (body : M A) (handler : exn -> M A) :
  framed P body -> (forall e, framed P (handler e)) ->
  framed P (try_except body handler).
Proof.
  intros Hb Hh w. unfold try_except. specialize (Hb w).
  destruct (body w) as [[a | e] w1]; cbn in *; [assumption |].
  eapply P_trans; [eassumption | apply Hh].
Qed.

Lemma framed_if {A} (b : bool) (m1 m2 : M A) :
  framed P m1 -> framed P m2 -> framed P (if b then m1 else m2).
Proof. destruct b; auto. Qed.

(** The driver and the button service touch the world through [emit]
    and [transact] only. *)
Hypothesis P_emit : forall e, framed P (emit e).
Hypothesis P_transact : forall reg, framed P (transact reg).

(** One step of a proof that a piece of straight-line code is framed. *)
Ltac frame :=
  first [ apply framed_ret | apply framed_lift | apply framed_self_addr
        | apply P_emit | apply P_transact
        | apply framed_if
        | apply framed_bind; [| intros ?]
        | apply framed_try; [| intros ?] ].

Lemma framed_read_block (reg : Z) (n : nat) : framed P (_read_block reg n).
Proof. unfold _read_block, read_i2c_block_data. repeat frame. Qed.

Lemma framed_write_block (reg : Z) (data : list Z) :
  framed P (_write_block reg data).
Proof. unfold _write_block, write_i2c_block_data. repeat frame. Qed.

Lemma framed_get_button_pressed : framed P get_button_pressed.
Proof.
  unfold get_button_pressed.
  apply framed_bind; [apply framed_read_block | intros b]. repeat frame.
Qed.

Lemma framed_sample (a : args) : framed P (sample a).
Proof.
  unfold sample, read_weights, get_weight_float, get_weight_int, get_raw_adc,
    print.
  repeat first [apply framed_read_block | frame].
Qed.

Lemma framed_wait_release_loop (fuel : nat) :
  framed P (wait_release_loop fuel).
Proof.
  induction fuel as [| fuel IH]; [apply framed_ret |].
  cbn [wait_release_loop]. unfold sleep.
  repeat first [apply framed_get_button_pressed | apply IH | frame].
Qed.

Lemma framed_wait_release : framed P wait_release.
Proof. intros w. unfold wait_release. apply framed_wait_release_loop. Qed.

Lemma framed_button_tare (a : args) (t : float) (st : locals) :
  framed P (button_tare a t st).
Proof.
  unfold button_tare, tare, print, sleep.
  repeat first [apply framed_get_button_pressed | apply framed_write_block
               | apply framed_wait_release | frame].
Qed.

End Frame.

Lemma same_files_refl (w : world) : same_files w w.
Proof. reflexivity. Qed.

Lemma same_files_trans (w1 w2 w3 : world) :
  same_files w1 w2 -> same_files w2 w3 -> same_files w1 w3.
Proof. unfold same_files. congruence. Qed.

Lemma same_files_emit (e : event) : framed same_files (emit e).
Proof. intros w. reflexivity. Qed.

Lemma same_files_transact (reg : Z) : framed same_files (transact reg).
Proof.
  intros w. unfold transact.
  destruct (bus w reg) as [| [| data] rest]; reflexivity.
Qed.

(** ** Code that sees the device only *)

Section DeviceOnly.

Import MiniScale.

Lemma device_only_ret {A} (a : A) : device_only (ret a).
Proof. intros w w' H. now split. Qed.

Lemma device_only_lift {A} (o : outcome A) : device_only (lift o).
Proof. intros w w' H. now split. Qed.

Lemma device_only_self_addr : device_only self_addr.
Proof. intros w w' [Hbus Haddr]. cbn. rewrite Haddr. now split. Qed.

Lemma device_only_emit (e : event) : device_only (emit e).
Proof. intros w w' H. now split. Qed.

Lemma device_only_transact (reg : Z) : device_only (transact reg).
Proof.
  intros w w' [Hbus Haddr]. unfold transact, set_bus, same_device.
  rewrite Hbus, Haddr.
  destruct (bus w' reg) as [| [| data] rest]; cbn; auto.
Qed.

Lemma device_only_bind {A B} (m : M A) (k : A -> M B) :
  device_only m -> (forall a, device_only (k a)) -> device_only (bind m k).
Proof.
  intros Hm Hk w w' H. unfold bind.
  destruct (Hm w w' H) as [Hfst Hdev].
  destruct (m w) as [[a | e] w1], (m w') as [[a' | e'] w1']; cbn in *;
    try discriminate.
  - injection Hfst as <-. apply Hk. exact Hdev.
  - injection Hfst as <-. split; [reflexivity | exact Hdev].
Qed.

Lemma device_only_read_block (reg : Z) (n : nat) :
  device_only (_read_block reg n).
Proof.
  unfold _read_block, read_i2c_block_data.
  apply device_only_bind; [apply device_only_self_addr | intros dev].
  apply device_only_bind; [| intros; apply device_only_lift].
  apply device_only_bind;
    [apply device_only_emit | intros; apply device_only_transact].
Qed.

Lemma device_only_read_weights (a : args) : device_only (read_weights a).
Proof.
  unfold read_weights, get_weight_float, get_weight_int, get_raw_adc.
  repeat first
    [ apply device_only_read_block | apply device_only_lift
    | apply device_only_ret
    | apply device_only_bind; [| intros ?] ].
Qed.

End DeviceOnly.

(* ================================================================== *)
(** * Properties of the driver *)

Section Driver.

Import MiniScale.

(** [_read_block], run. *)
Lemma read_block_run (reg : Z) (n : nat) (w : world) :
  _read_block reg n w =
  match bus w reg with
  | Ack data :: rest =>
      (bytes_of data, set_bus reg rest (log (I2cRead (addr w) reg n) w))
  | Nack :: rest =>
      (Raise OSError, set_bus reg rest (log (I2cRead (addr w) reg n) w))
  | [] => (Raise OSError, log (I2cRead (addr w) reg n) w)
  end.
Proof.
  unfold _read_block, read_i2c_block_data, self_addr, emit, transact, lift,
    bind.
  cbn. destruct (bus w reg) as [| [| data] rest]; reflexivity.
Qed.

Lemma read_block_nacked (reg : Z) (n : nat) (w : world) :
  nacked reg w -> exists w', _read_block reg n w = (Raise OSError, w').
Proof.
  unfold nacked. rewrite read_block_run.
  destruct (bus w reg) as [| [| data] rest]; intros H;
    [eauto | eauto | contradiction].
Qed.

(** A read leaves the replies of the other registers where they are. *)
Lemma read_block_other (reg r : Z) (n : nat) (w : world) :
  r <> reg -> bus (snd (_read_block reg n w)) r = bus w r.
Proof.
  intros Hr. rewrite read_block_run.
  destruct (bus w reg) as [| [| data] rest]; cbn; try reflexivity;
    destruct (r =? reg) eqn:E; try reflexivity;
    apply Z.eqb_eq in E; contradiction.
Qed.

(** A read of an answered register whose bytes are bytes. *)
Lemma read_block_answered (reg : Z) (n : nat) (data : list Z) (w : world) :
  forallb is_byte data = true ->
  fst (_read_block reg n (answering reg (Ack data) w)) = Ret data.
Proof.
  intros Hdata. rewrite read_block_run. unfold answering, bytes_of.
  cbn. rewrite Z.eqb_refl. cbn. now rewrite Hdata.
Qed.

Lemma int_to_float_in_range (z : Z) :
  Z.abs z < float_overflow_bound -> int_to_float z = Ret (Z2float z).
Proof.
  intros Hz. unfold int_to_float.
  destruct (float_overflow_bound <=? Z.abs z) eqn:E; [| reflexivity].
  apply Z.leb_le in E. lia.
Qed.

Lemma int32_difference_in_range (a b : Z) :
  is_int32 a -> is_int32 b -> Z.abs (a - b) < float_overflow_bound.
Proof.
  unfold is_int32. intros Ha Hb.
  assert (2 ^ 32 < float_overflow_bound) by (vm_compute; reflexivity).
  change (2 ^ 31) with 2147483648 in *.
  change (2 ^ 32) with 4294967296 in *. lia.
Qed.

Lemma int_truediv_float_not_ValueError (n : Z) (y : float) :
  int_truediv_float n y <> Raise ValueError.
Proof.
  unfold int_truediv_float, int_to_float, float_truediv, obind.
  destruct (float_overflow_bound <=? Z.abs n); [discriminate |].
  destruct (y =? 0)%float; discriminate.
Qed.

(** C3. [compute_gap_from_points] raises [ValueError], and so gives no
    result, exactly when the known weight compares equal to zero.  With
    a weight that is not zero it returns the float quotient of
    [adc_0g - adc_w] by the weight, as long as the difference is within
    the range of the floats, which it is for the int32 counts of the
    device.  And [compute_gap_from_points(1000, 800, 200)] is [1.0]. *)
Theorem compute_gap_from_points_spec (adc_0g adc_w : Z) (weight_g : float) :
  ((weight_g =? 0)%float = true <->
   compute_gap_from_points adc_0g adc_w weight_g = Raise ValueError)
  /\ ((weight_g =? 0)%float = false ->
      Z.abs (adc_0g - adc_w) < float_overflow_bound ->
      compute_gap_from_points adc_0g adc_w weight_g
      = Ret (Z2float (adc_0g - adc_w) / weight_g)%float)
  /\ (is_int32 adc_0g -> is_int32 adc_w ->
      Z.abs (adc_0g - adc_w) < float_overflow_bound)
  /\ compute_gap_from_points 1000 800 200 = Ret 1%float.
Proof.
  split; [split | split; [| split]].
  - intros H. unfold compute_gap_from_points. now rewrite H.
  - unfold compute_gap_from_points.
    destruct (weight_g =? 0)%float; [reflexivity |].
    intros H. now apply int_truediv_float_not_ValueError in H.
  - intros Hw Hrange.
    unfold compute_gap_from_points, int_truediv_float, float_truediv.
    rewrite Hw, int_to_float_in_range by assumption. reflexivity.
  - apply int32_difference_in_range.
  - vm_compute. reflexivity.
Qed.

(** The theorem at a calibration with a 200 g weight. *)
Lemma compute_gap_from_points_witness :
  compute_gap_from_points 9136487 9100000 200
  = Ret (Z2float (9136487 - 9100000) / 200)%float.
Proof.
  apply (proj1 (proj2 (compute_gap_from_points_spec 9136487 9100000 200))).
  - reflexivity.
  - apply (proj1 (proj2 (proj2
             (compute_gap_from_points_spec 9136487 9100000 200))));
      unfold is_int32; lia.
Defined.

(** C6. [get_button_pressed] is true exactly when the byte read from the
    button register is 0. *)
Theorem get_button_pressed_iff_zero (v : Z) (w : world) :
  is_byte v = true ->
  exists pressed,
    fst (get_button_pressed (answering REG_BUTTON (Ack [v]) w)) = Ret pressed
    /\ (pressed = true <-> v = 0).
Proof.
  intros Hv. exists (v =? 0). split; [| apply Z.eqb_eq].
  assert (Hread : fst (_read_block REG_BUTTON 1
                         (answering REG_BUTTON (Ack [v]) w)) = Ret [v])
    by (apply read_block_answered; cbn; now rewrite Hv).
  unfold get_button_pressed, bind.
  destruct (_read_block REG_BUTTON 1 _) as [o w1]. cbn in Hread. subst o.
  reflexivity.
Qed.

(** The theorem on a button that is not pressed. *)
Lemma get_button_pressed_witness :
  exists pressed,
    fst (get_button_pressed
           (answering REG_BUTTON (Ack [1])
                      (World 0x26 (fun _ => []) (fun _ => []) [])))
    = Ret pressed
    /\ (pressed = true <-> 1 = 0).
Proof.
  apply (get_button_pressed_iff_zero 1). reflexivity.
Defined.

(** C5. Against a current block [[b0; b1; b2]], [set_filters] reads the
    block and then writes one block of three bytes in which a field the
    caller left out has the byte just read, and a field the caller gave
    has the caller's value (masked to a byte); with only [avg_level=20]
    against [[1; 10; 10]] the payload is [[1; 20; 10]]. *)
Theorem set_filters_keeps_unspecified
  (b0 b1 b2 : Z) (lp_enabled avg_level ema_alpha : option Z) (w : world) :
  is_byte b0 = true -> is_byte b1 = true -> is_byte b2 = true ->
  let w' := snd (set_filters lp_enabled avg_level ema_alpha
                             (answering REG_FILTERS (Ack [b0; b1; b2]) w)) in
  trace w' = trace w ++
             [I2cRead (addr w) REG_FILTERS 3;
              I2cWrite (addr w) REG_FILTERS
                       [slot lp_enabled b0; slot avg_level b1; slot ema_alpha b2]]
  /\ slot None b0 = b0 /\ slot None b1 = b1 /\ slot None b2 = b2
  /\ [slot None 1; slot (Some 20) 10; slot None 10] = [1; 20; 10].
Proof.
  intros H0 H1 H2. split; [| repeat split].
  unfold set_filters, bind. rewrite read_block_run.
  unfold _write_block, write_i2c_block_data, bind, self_addr, emit, transact,
    lift, bytes_of, answering.
  cbn. rewrite H0, H1, H2. cbn.
  destruct lp_enabled, avg_level, ema_alpha; cbn;
    destruct (bus w REG_FILTERS) as [| [|] ?]; cbn;
    rewrite <- app_assoc; reflexivity.
Qed.

(** The theorem on the update of the specification. *)
Lemma set_filters_witness :
  trace (snd (set_filters None (Some 20) None
                (answering REG_FILTERS (Ack [1; 10; 10])
                   (World 0x26 (fun _ => [Ack []]) (fun _ => []) []))))
  = [I2cRead 0x26 REG_FILTERS 3; I2cWrite 0x26 REG_FILTERS [1; 20; 10]].
Proof.
  apply (set_filters_keeps_unspecified 1 10 10 None (Some 20) None
           (World 0x26 (fun _ => [Ack []]) (fun _ => []) []));
    reflexivity.
Defined.

(** C10. For every integer [new_addr], [set_i2c_address] writes
    [new_addr mod 128] to the address register at the old address and,
    the device having answered, leaves [new_addr mod 128] as the
    client's address and returns it: 128 or more is cut to 7 bits, not
    refused. *)
Theorem set_i2c_address_mod_128 (new_addr : Z) (ack : list Z) (w : world) :
  let r := set_i2c_address new_addr (answering REG_I2C_ADDRESS (Ack ack) w) in
  fst r = Ret (new_addr mod 128)
  /\ addr (snd r) = new_addr mod 128
  /\ trace (snd r)
     = trace w ++ [I2cWrite (addr w) REG_I2C_ADDRESS [new_addr mod 128]]
  /\ 0 <= new_addr mod 128 < 128.
Proof.
  assert (E : Z.land new_addr 0x7F = new_addr mod 128)
    by (change 0x7F with (Z.ones 7); now rewrite Z.land_ones by lia).
  unfold set_i2c_address, _write_block, write_i2c_block_data, assign_addr,
    bind, self_addr, emit, transact, answering.
  cbn. rewrite E. repeat split; try reflexivity; apply Z.mod_pos_bound; lia.
Qed.

(** X2. The two encodings of the weight, on 25 g: the float32 bytes of
    [25.0] decode to [25.0], and the int32 [2500] of the scaled weight
    gives [25.0] grams. *)
Theorem weight_decodings (w : world) :
  fst (get_weight_float (answering REG_WEIGHT_F32 (Ack [0; 0; 200; 65]) w))
  = Ret 25%float
  /\ fst (get_weight_int
            (answering REG_WEIGHT_X100_I32 (Ack [196; 9; 0; 0]) w))
     = Ret 25%float.
Proof.
  split.
  - pose proof (read_block_answered REG_WEIGHT_F32 4 [0; 0; 200; 65] w
                  eq_refl) as Hread.
    unfold get_weight_float, bind.
    destruct (_read_block REG_WEIGHT_F32 4 _) as [o w1]. cbn in Hread.
    subst o. vm_compute. reflexivity.
  - pose proof (read_block_answered REG_WEIGHT_X100_I32 4 [196; 9; 0; 0] w
                  eq_refl) as Hread.
    unfold get_weight_int, bind.
    destruct (_read_block REG_WEIGHT_X100_I32 4 _) as [o w1]. cbn in Hread.
    subst o. vm_compute. reflexivity.
Qed.

End Driver.

(* ================================================================== *)
(** * Properties of the logger: file names and headers *)

Section Names.

Variable isalnum_wide : N -> bool.

Lemma kept_eq (c : N) :
  (isalnum isalnum_wide c || contains [c] (lit "-_")) = kept isalnum_wide c.
Proof.
  unfold kept. cbn -[isalnum].
  destruct (isalnum isalnum_wide c), (c =? 45)%N, (c =? 95)%N; reflexivity.
Qed.

Lemma kept_ascii (c : N) :
  (c < 128)%N -> kept isalnum_wide c = in_safe_set c.
Proof.
  intros Hc. unfold kept, isalnum, in_safe_set.
  apply N.ltb_lt in Hc. rewrite Hc.
  destruct (in_range 48 57 c), (in_range 65 90 c), (in_range 97 122 c),
    (c =? 45)%N, (c =? 95)%N; reflexivity.
Qed.

Lemma sanitize_tag_length (tag : pystr) :
  length (sanitize_tag isalnum_wide tag) = length tag.
Proof. unfold sanitize_tag. apply length_map. Qed.

Lemma sanitize_tag_ascii (tag : pystr) :
  Forall (fun c => (c < 128)%N) tag ->
  sanitize_tag isalnum_wide tag = spec_sanitize tag.
Proof.
  induction 1 as [| c tag Hc _ IH]; [reflexivity |].
  unfold sanitize_tag, spec_sanitize in *. cbn [map].
  rewrite IH, kept_eq, kept_ascii by assumption. reflexivity.
Qed.

(** C7, as the code has it. The log file name is
    [weight_data_{tag_}{day}.csv], the tag part left out for an empty
    tag, where the tag keeps its length and each of its characters is
    kept when [str.isalnum] holds of it or it is [-] or [_], and is
    replaced by [_] otherwise; for a tag of ASCII characters that is the
    name of the specification, with [[A-Za-z0-9_-]] as the kept set. *)
Theorem base_name_sanitized (tag day : pystr) :
  base_name isalnum_wide tag day
  = lit "weight_data_" ++
    match tag with
    | [] => []
    | _ :: _ => sanitize_tag isalnum_wide tag ++ lit "_"
    end ++ day ++ lit ".csv"
  /\ length (sanitize_tag isalnum_wide tag) = length tag
  /\ (forall i c, nth_error tag i = Some c ->
        nth_error (sanitize_tag isalnum_wide tag) i
        = Some (if kept isalnum_wide c then c else underscore))
  /\ (Forall (fun c => (c < 128)%N) tag ->
      base_name isalnum_wide tag day = spec_file_name tag day).
Proof.
  assert (E : base_name isalnum_wide tag day
              = lit "weight_data_" ++
                match tag with
                | [] => []
                | _ :: _ => sanitize_tag isalnum_wide tag ++ lit "_"
                end ++ day ++ lit ".csv").
  { unfold base_name. rewrite sanitize_tag_length.
    destruct tag; reflexivity. }
  split; [exact E |]. split; [apply sanitize_tag_length |]. split.
  - intros i c Hi. unfold sanitize_tag.
    rewrite nth_error_map, Hi. cbn. now rewrite kept_eq.
  - intros Hascii. rewrite E. unfold spec_file_name.
    rewrite sanitize_tag_ascii by assumption. reflexivity.
Qed.

End Names.

(** The theorem on the tag [scale A]: the blank becomes an
    underscore. *)
Lemma base_name_witness :
  base_name no_wide (lit "scale A") (lit "2025-08-05")
  = spec_file_name (lit "scale A") (lit "2025-08-05").
Proof.
  apply (proj2 (proj2 (proj2
           (base_name_sanitized no_wide (lit "scale A")
                                (lit "2025-08-05"))))).
  repeat constructor.
Defined.

(** C7, as the specification words it, fails on a tag with a letter
    outside ASCII: [str.isalnum] holds of U+00E9, so the code keeps it,
    where the specification replaces it. *)
Lemma base_name_keeps_non_ascii_letter :
  base_name no_wide [233%N] (lit "2025-08-05")
  <> spec_file_name [233%N] (lit "2025-08-05").
Proof. vm_compute. discriminate. Qed.

Section Header.

Lemma startswith_spec (p s : pystr) :
  startswith p s = true <-> exists after, s = p ++ after.
Proof.
  revert s. induction p as [| a p IH]; intros s; cbn.
  - split; [intros _; now exists s | reflexivity].
  - destruct s as [| b s].
    + split; [discriminate | intros [after H]; discriminate].
    + rewrite andb_true_iff, N.eqb_eq, IH. split.
      * intros [-> [after ->]]. now exists after.
      * intros [after H]. injection H as -> ->. split; [reflexivity |].
        now exists after.
Qed.

(** [in] on strings finds exactly the occurrences. *)
Lemma contains_spec (needle hay : pystr) :
  contains needle hay = true <-> occurs needle hay.
Proof.
  unfold occurs. induction hay as [| c hay IH].
  - cbn [contains]. rewrite orb_false_r, startswith_spec. split.
    + intros [after H]. now exists [], after.
    + intros [before [after H]].
      destruct before; [now exists after |]. discriminate.
  - cbn [contains]. rewrite orb_true_iff, startswith_spec, IH. split.
    + intros [[after H] | [before [after H]]].
      * now exists [], after.
      * exists (c :: before), after. cbn. now rewrite H.
    + intros [before [after H]]. destruct before as [| b before].
      * left. now exists after.
      * right. injection H as _ H. now exists before, after.
Qed.

(** The header text holds no line ending. *)
Lemma readline_header (rest : pystr) :
  readline (HEADER ++ rest) = HEADER ++ readline rest.
Proof. reflexivity. Qed.

Lemma csv_line_header : csv_line HEADER_ROW = HEADER_LINE.
Proof. reflexivity. Qed.

Lemma str_eqb_refl (s : pystr) : str_eqb s s = true.
Proof.
  induction s as [| c s IH]; [reflexivity |].
  cbn. now rewrite N.eqb_refl, IH.
Qed.

Lemma str_eqb_eq (s t : pystr) : str_eqb s t = true -> s = t.
Proof.
  revert t. induction s as [| a s IH]; intros [| b t]; cbn;
    try discriminate; [reflexivity |].
  intros H. apply andb_true_iff in H as [Hab Hst].
  apply N.eqb_eq in Hab. f_equal; auto.
Qed.

(** [ensure_header], run. *)
Lemma ensure_header_run (fp : pystr) (w : world) :
  ensure_header fp w =
  if (length (fs w fp) =? 0)%nat
     || negb (contains HEADER (readline (fs w fp)))
  then (Ret tt, log (FileWrite fp HEADER_LINE)
                    (set_file fp (fs w fp ++ HEADER_LINE) w))
  else (Ret tt, w).
Proof.
  unfold ensure_header, bind, file_text, writerow, file_append, ret.
  rewrite csv_line_header.
  destruct (length (fs w fp) =? 0)%nat; cbn [negb orb]; [reflexivity |].
  destruct (contains HEADER (readline (fs w fp))); reflexivity.
Qed.

(** C4, as the code has it. On a file that holds [text],
    [ensure_header] does not raise; it writes the header line, once and
    at the end of the file, when the file is empty or the header text
    does not occur in its first line, and otherwise leaves everything as
    it is.  So a file that starts with the header text gets no second
    header, and an empty file holds the header line alone. *)
Theorem ensure_header_once (fp : pystr) (w : world) :
  let text := fs w fp in
  let w' := snd (ensure_header fp w) in
  fst (ensure_header fp w) = Ret tt
  /\ (text = [] \/ ~ occurs HEADER (readline text) ->
      trace w' = trace w ++ [FileWrite fp HEADER_LINE]
      /\ fs w' fp = text ++ HEADER_LINE)
  /\ (text <> [] /\ occurs HEADER (readline text) -> w' = w)
  /\ (forall rest, text = HEADER ++ rest -> w' = w)
  /\ (text = [] -> fs w' fp = HEADER_LINE).
Proof.
  cbn zeta. rewrite ensure_header_run.
  assert (Hwrite : forall x,
             fs (log (FileWrite fp HEADER_LINE) (set_file fp x w)) fp = x)
    by (intros x; cbn; now rewrite str_eqb_refl).
  assert (Hkeep : contains HEADER (readline (fs w fp)) = true ->
                  fs w fp <> [] ->
                  (length (fs w fp) =? 0)%nat
                  || negb (contains HEADER (readline (fs w fp))) = false).
  { intros -> Hne. destruct (fs w fp); [contradiction | reflexivity]. }
  split; [| split; [| split; [| split]]].
  - destruct (_ || _); reflexivity.
  - intros H.
    assert (E : (length (fs w fp) =? 0)%nat
                || negb (contains HEADER (readline (fs w fp))) = true).
    { destruct H as [-> | H]; [reflexivity |].
      destruct (contains HEADER (readline (fs w fp))) eqn:C.
      - now apply contains_spec in C.
      - apply orb_true_r. }
    rewrite E. cbn [snd]. split; [reflexivity | apply Hwrite].
  - intros [Hne Hocc]. apply contains_spec in Hocc.
    now rewrite Hkeep.
  - intros rest E. rewrite Hkeep; [reflexivity | | rewrite E; discriminate].
    rewrite E, readline_header. apply contains_spec.
    now exists [], (readline rest).
  - intros E. rewrite E. cbn [length Nat.eqb orb snd].
    rewrite <- E at 1. now rewrite Hwrite, E.
Qed.

End Header.

(** The theorem on the cases of its hypotheses: a fresh file, a file
    whose first line is a data row, and a file the logger wrote
    before. *)
Lemma ensure_header_witness :
  let fresh := World 0x26 (fun _ => []) (fun _ => []) [] in
  let headless :=
    World 0x26 (fun _ => []) (fun _ => lit "T,1.000,1.000,5") [] in
  let logged := World 0x26 (fun _ => []) (fun _ => HEADER_LINE) [] in
  let fp := lit "data/weight_data_2025-08-05.csv" in
  fs (snd (ensure_header fp fresh)) fp = HEADER_LINE
  /\ fs (snd (ensure_header fp headless)) fp
     = lit "T,1.000,1.000,5" ++ HEADER_LINE
  /\ snd (ensure_header fp logged) = logged.
Proof.
  cbn zeta. split; [| split].
  - apply (ensure_header_once (lit "data/weight_data_2025-08-05.csv")
             (World 0x26 (fun _ => []) (fun _ => []) [])).
    reflexivity.
  - apply (ensure_header_once (lit "data/weight_data_2025-08-05.csv")
             (World 0x26 (fun _ => []) (fun _ => lit "T,1.000,1.000,5") [])).
    right. intros H. apply contains_spec in H. discriminate H.
  - apply (ensure_header_once (lit "data/weight_data_2025-08-05.csv")
             (World 0x26 (fun _ => []) (fun _ => HEADER_LINE) [])
           ) with (rest := [13; 10]%N).
    reflexivity.
Defined.

(** C4, as the specification words it, fails on a file whose first line
    holds the header text after a byte-order mark: the line does not
    start with the header text, and yet no header is written. *)
Lemma ensure_header_not_by_prefix :
  headers_written (65279%N :: HEADER_LINE)
  <> header_by_prefix (65279%N :: HEADER_LINE).
Proof. vm_compute. discriminate. Qed.

(* ================================================================== *)
(** * Properties of the loop *)

(** ** The button service returns *)

Section Totality.

Import MiniScale.

Lemma total_wait_release_loop (fuel : nat) : total (wait_release_loop fuel).
Proof.
  induction fuel as [| fuel IH]; [apply total_ret |].
  cbn [wait_release_loop]. apply total_bind.
  - apply total_try. intros; apply total_ret.
  - intros [|]; [apply total_ret |].
    apply total_bind; [apply total_emit | intros; apply IH].
Qed.

Lemma total_button_tare (a : args) (t : float) (st : locals) :
  total (button_tare a t st).
Proof.
  unfold button_tare.
  destruct (BTN_SAMPLE_SECS <=? t - last_sample_time st)%float;
    [| apply total_ret].
  apply total_bind; [apply total_try; intros; apply total_ret |].
  intros pressed. apply total_bind; [| intros; apply total_ret].
  destruct (pressed && negb (prev_pressed st)); [| apply total_ret].
  apply total_try. intros; apply total_emit.
Qed.

(** The button service returns, with the path it was given and the
    files as they were. *)
Lemma button_tare_returns (a : args) (t : float) (st : locals) (w : world) :
  exists st' w',
    button_tare a t st w = (Ret st', w')
    /\ current_path st' = current_path st
    /\ fs w' = fs w.
Proof.
  destruct (total_button_tare a t st w) as [st' Hst'].
  pose proof (framed_button_tare same_files same_files_refl same_files_trans
                same_files_emit same_files_transact a t st w) as Hfs.
  destruct (button_tare a t st w) as [o w'] eqn:E. cbn in Hst', Hfs. subst o.
  exists st', w'. split; [reflexivity |]. split; [| exact Hfs].
  revert E. unfold button_tare.
  destruct (BTN_SAMPLE_SECS <=? t - last_sample_time st)%float.
  - unfold bind at 1.
    destruct (try_except get_button_pressed _ w) as [[pressed | e] w1];
      [| discriminate].
    unfold bind at 1.
    match goal with
    | |- context [(if ?b then ?m1 else ?m2) w1] =>
        destruct ((if b then m1 else m2) w1) as [[u | e] w2]
    end; [| discriminate].
    intros E. injection E as <- _. reflexivity.
  - intros E. injection E as <- _. reflexivity.
Qed.

End Totality.

(** ** The wait for the release of the button ends *)

Section WaitRelease.

Import MiniScale.

(** One turn of the waiting loop that does not end it has used up a
    reply of the button register. *)
Lemma wait_step_consumes (w w1 : world) :
  try_except (pressed <- get_button_pressed ;; ret (negb pressed))
             (fun _ => ret true) w
  = (Ret false, w1) ->
  (S (length (bus w1 REG_BUTTON)) <= length (bus w REG_BUTTON))%nat.
Proof.
  unfold try_except, get_button_pressed, bind. rewrite read_block_run.
  destruct (bus w REG_BUTTON) as [| [| data] rest]; cbn;
    try discriminate.
  destruct (bytes_of data) as [b | e]; cbn; [| discriminate].
  destruct (index b 0) as [v | e]; cbn; [| discriminate].
  intros E. injection E as _ <-. cbn. lia.
Qed.

(** Any two amounts of fuel beyond the number of replies left on the
    button register give the same run of the waiting loop. *)
Lemma wait_release_loop_any_fuel (f1 f2 : nat) (w : world) :
  (length (bus w REG_BUTTON) < f1)%nat ->
  (length (bus w REG_BUTTON) < f2)%nat ->
  wait_release_loop f1 w = wait_release_loop f2 w.
Proof.
  revert f2 w. induction f1 as [| f1 IH]; intros f2 w H1 H2; [lia |].
  destruct f2 as [| f2]; [lia |].
  cbn [wait_release_loop].
  set (step := try_except (pressed <- get_button_pressed ;; ret (negb pressed))
                          (fun _ => ret true)).
  unfold bind.
  destruct (step w) as [[[|] | e] w1] eqn:E; try reflexivity.
  apply wait_step_consumes in E.
  unfold sleep, emit. apply IH; cbn; lia.
Qed.

(** X3. The waiting loop never runs out of fuel: [wait_release] is the
    loop run with any fuel beyond the number of replies left on the
    button register. *)
Theorem wait_release_enough_fuel (fuel : nat) (w : world) :
  (length (bus w REG_BUTTON) < fuel)%nat ->
  wait_release w = wait_release_loop fuel w.
Proof.
  intros H. unfold wait_release. apply wait_release_loop_any_fuel; lia.
Qed.

End WaitRelease.

(** The theorem on a wait during which the button reads pressed twice
    and then is not answered. *)
Lemma wait_release_fuel_witness :
  wait_release (device [poll_reply true; poll_reply true] 2)
  = wait_release_loop 5 (device [poll_reply true; poll_reply true] 2).
Proof.
  apply (wait_release_enough_fuel 5
           (device [poll_reply true; poll_reply true] 2)).
  cbn. lia.
Defined.

(** ** A turn of the loop with a failed read *)

Section FailedRead.

Import MiniScale.

Variable isalnum_wide : N -> bool.

(** A read followed by a decoding of the bytes. *)
Lemma decoded_read_nacked {A} (reg : Z) (n : nat) (k : list Z -> M A)
      (w : world) :
  nacked reg w ->
  exists w', bind (_read_block reg n) k w = (Raise OSError, w').
Proof.
  intros H. destruct (read_block_nacked reg n w H) as [w' Hw'].
  exists w'. now apply bind_raise_run.
Qed.

Lemma decoded_read_other {A} (reg r : Z) (n : nat) (k : list Z -> M A)
      (w : world) :
  (forall b w1, snd (k b w1) = w1) ->
  r <> reg ->
  bus (snd (bind (_read_block reg n) k w)) r = bus w r.
Proof.
  intros Hk Hr. pose proof (read_block_other reg r n w Hr) as H.
  unfold bind. destruct (_read_block reg n w) as [[b | e] w1]; cbn in *;
    [rewrite Hk |]; exact H.
Qed.

(** The three reads raise as soon as one of the registers does not
    answer: a read that comes first may raise before, and otherwise
    leaves the replies of the registers read after it in place. *)
Lemma read_weights_raises (a : args) (w : world) :
  nacked REG_WEIGHT_F32 w \/ nacked REG_WEIGHT_X100_I32 w
  \/ nacked REG_RAW_ADC w ->
  exists e, fst (read_weights a w) = Raise e.
Proof.
  intros H.
  enough (exists e w', read_weights a w = (Raise e, w')) as (e & w' & E)
    by (exists e; now rewrite E).
  unfold read_weights.
  assert (Hf : bus (snd (get_weight_float w)) REG_WEIGHT_X100_I32
               = bus w REG_WEIGHT_X100_I32
               /\ bus (snd (get_weight_float w)) REG_RAW_ADC
                  = bus w REG_RAW_ADC).
  { split; apply decoded_read_other; try reflexivity; discriminate. }
  destruct Hf as [Hf1 Hf2].
  unfold bind at 1.
  destruct (get_weight_float w) as [[f | e] w1] eqn:Ef; [| eauto].
  cbn [snd] in Hf1, Hf2.
  assert (Hi : bus (snd (get_weight_int w1)) REG_RAW_ADC
               = bus w1 REG_RAW_ADC).
  { apply decoded_read_other; try reflexivity; discriminate. }
  unfold bind at 1.
  destruct (get_weight_int w1) as [[i | e] w2] eqn:Ei; [| eauto].
  cbn [snd] in Hi.
  unfold bind at 1.
  destruct (get_raw_adc w2) as [[adc | e] w3] eqn:Ea; [| eauto].
  exfalso. destruct H as [H | [H | H]].
  - destruct (decoded_read_nacked _ 4 (fun b => lift (unpack_f32 b)) _ H)
      as [w' Hw'].
    unfold get_weight_float in Ef. congruence.
  - assert (H1 : nacked REG_WEIGHT_X100_I32 w1)
      by (unfold nacked in *; now rewrite Hf1).
    destruct (decoded_read_nacked _ 4
                (fun b => lift (int_truediv_float (from_bytes_signed b) 100))
                _ H1) as [w' Hw'].
    unfold get_weight_int in Ei. congruence.
  - assert (H2 : nacked REG_RAW_ADC w2)
      by (unfold nacked in *; now rewrite Hi, Hf2).
    destruct (decoded_read_nacked _ 4 (fun b => ret (from_bytes_signed b)) _ H2)
      as [w' Hw'].
    unfold get_raw_adc in Ea. congruence.
Qed.

(** When the reads raise, the sample is the sentinel one. *)
Lemma sample_failed (a : args) (w : world) (e : exn) :
  fst (read_weights a w) = Raise e ->
  exists w', sample a w = (Ret (nan, nan, -1), w') /\ fs w' = fs w.
Proof.
  intros H.
  pose proof (framed_sample same_files same_files_refl same_files_trans
                same_files_emit same_files_transact a w) as Hfs.
  unfold sample, try_except in *.
  destruct (read_weights a w) as [o w1]. cbn in H. subst o.
  eexists. split; [reflexivity | exact Hfs].
Qed.

(** The rotation returns, with the path of the day as the current one;
    it leaves the bus alone, and the file of the day as it was or with
    a header at its end. *)
Lemma rotate_run (a : args) (c : clock) (st : locals) (w : world) :
  let path := today_path isalnum_wide (data_dir a) (name a) (day c) in
  exists w1,
    rotate isalnum_wide a c st w
    = (Ret (Locals path (prev_pressed st) (last_sample_time st)), w1)
    /\ same_device w w1
    /\ (fs w1 path = fs w path \/ fs w1 path = fs w path ++ HEADER_LINE).
Proof.
  cbn zeta. unfold rotate.
  set (path := today_path isalnum_wide (data_dir a) (name a) (day c)).
  destruct (str_eqb path (current_path st)) eqn:E; cbn [negb].
  - apply str_eqb_eq in E. exists w. rewrite E. destruct st. cbn.
    repeat split; auto.
  - unfold bind. rewrite ensure_header_run.
    destruct (_ || _).
    + eexists. split; [reflexivity |]. split; [now split |].
      right. cbn [fs log set_file]. now rewrite str_eqb_refl.
    + exists w. repeat split; auto.
Qed.

Lemma format_3f_nan : format_3f nan = lit "nan".
Proof. vm_compute. reflexivity. Qed.

Lemma str_of_int_minus_one : str_of_int (-1) = lit "-1".
Proof. vm_compute. reflexivity. Qed.

(** C2. In a turn of the loop in which the three reads (float weight,
    scaled weight, raw count) raise, whichever of them fails and
    however, the failure does not end the loop: with an interval whose
    pause [time.sleep] accepts, the turn does not raise; it ends with
    the row [ts,nan,nan,-1] as the last line of the file of the day
    (after what the file held, and its header if the turn had to write
    one), and the loop goes on with the next turn. *)
Theorem failed_read_writes_sentinel_row
        (a : args) (c : clock) (st : locals) (w : world) (e : exn) :
  fst (read_weights a w) = Raise e ->
  sleep_check (max0 (interval a - BTN_SAMPLE_SECS)) = Ret tt ->
  exists st' w' before,
    tick isalnum_wide a c st w = (Ret st', w')
    /\ current_path st'
       = today_path isalnum_wide (data_dir a) (name a) (day c)
    /\ fs w' (current_path st')
       = before ++ csv_line [ts c; lit "nan"; lit "nan"; lit "-1"]
    /\ (before = fs w (current_path st')
        \/ before = fs w (current_path st') ++ HEADER_LINE)
    /\ forall rest,
         main_loop isalnum_wide a (c :: rest) st w
         = main_loop isalnum_wide a rest st' w'.
Proof.
  intros H Hpause.
  destruct (rotate_run a c st w) as (w1 & Hrot & Hdev & Hfs1).
  set (path := today_path isalnum_wide (data_dir a) (name a) (day c)) in *.
  set (st1 := Locals path (prev_pressed st) (last_sample_time st)) in *.
  assert (H1 : fst (read_weights a w1) = Raise e)
    by (destruct (device_only_read_weights a w w1 Hdev) as [<- _]; exact H).
  destruct (sample_failed a w1 e H1) as (w2 & Hsample & Hfs2).
  set (row := csv_line [ts c; lit "nan"; lit "nan"; lit "-1"]).
  set (w3 := log (FileWrite path row) (set_file path (fs w2 path ++ row) w2)).
  set (w4 := if print_flag a then log (Printed InfoSample) w3 else w3).
  assert (Hfs4 : fs w4 path = fs w2 path ++ row).
  { unfold w4, w3. destruct (print_flag a); cbn; now rewrite str_eqb_refl. }
  destruct (button_tare_returns a (now c) st1 w4)
    as (st' & w5 & Hbtn & Hpath & Hfs5).
  set (w6 := log (Slept (max0 (interval a - BTN_SAMPLE_SECS))) w5).
  assert (Htick : tick isalnum_wide a c st w = (Ret st', w6)).
  { unfold tick.
    rewrite (bind_ret_run _ Hrot), (bind_ret_run _ Hsample).
    rewrite format_3f_nan, str_of_int_minus_one.
    assert (Hrow : forall k : unit -> M locals,
               bind (writerow (current_path st1)
                              [ts c; lit "nan"; lit "nan"; lit "-1"]) k w2
               = k tt w3)
      by reflexivity.
    rewrite Hrow.
    assert (Hprint : forall k : unit -> M locals,
               bind (if print_flag a then print InfoSample else ret tt) k w3
               = k tt w4)
      by (intros k; unfold w4; now destruct (print_flag a)).
    rewrite Hprint, (bind_ret_run _ Hbtn).
    unfold bind. rewrite sleep_run, Hpause. reflexivity. }
  exists st', w6, (fs w1 path).
  rewrite Hpath. cbn [current_path st1].
  split; [exact Htick |]. split; [reflexivity |]. split.
  - unfold w6. cbn [fs log]. now rewrite Hfs5, Hfs4, Hfs2.
  - split; [exact Hfs1 |].
    intros rest. cbn [main_loop]. now rewrite (bind_ret_run _ Htick).
Qed.

End FailedRead.

(** The theorem on a device whose scaled-weight register does not
    answer, with the default interval of one second. *)
Lemma failed_read_witness :
  let w :=
    World MiniScale.DEFAULT_ADDR
          (fun reg => if reg =? MiniScale.REG_WEIGHT_X100_I32 then [Nack]
                      else [Ack [0; 0; 200; 65]])
          (fun _ => []) [] in
  let c := Clock (lit "2025-08-05") (lit "2025-08-05T12:00:00") 1000 in
  let st := Locals (lit "data/weight_data_2025-08-05.csv") false 0 in
  exists st' w' before,
    tick no_wide bench_args c st w = (Ret st', w')
    /\ current_path st'
       = today_path no_wide (data_dir bench_args) (name bench_args) (day c)
    /\ fs w' (current_path st')
       = before ++ csv_line [ts c; lit "nan"; lit "nan"; lit "-1"]
    /\ (before = fs w (current_path st')
        \/ before = fs w (current_path st') ++ HEADER_LINE)
    /\ forall rest,
         main_loop no_wide bench_args (c :: rest) st w
         = main_loop no_wide bench_args rest st' w'.
Proof.
  cbn zeta.
  apply (failed_read_writes_sentinel_row no_wide bench_args
           (Clock (lit "2025-08-05") (lit "2025-08-05T12:00:00") 1000)
           (Locals (lit "data/weight_data_2025-08-05.csv") false 0)
           (World MiniScale.DEFAULT_ADDR
                  (fun reg => if reg =? MiniScale.REG_WEIGHT_X100_I32
                              then [Nack] else [Ack [0; 0; 200; 65]])
                  (fun _ => []) [])
           OSError);
    reflexivity.
Defined.

(** ** The button and the tare *)

Section Button.

Import MiniScale.

(** A poll of the button is one read on the bus, whatever comes of
    it. *)
Lemma get_button_pressed_trace (w : world) :
  trace (snd (get_button_pressed w))
  = trace w ++ [I2cRead (addr w) REG_BUTTON 1].
Proof.
  unfold get_button_pressed, bind. rewrite read_block_run.
  destruct (bus w REG_BUTTON) as [| [| data] rest]; try reflexivity.
  unfold bytes_of. destruct (forallb is_byte data); [| reflexivity].
  unfold lift. destruct (index data 0); reflexivity.
Qed.

(** A poll of the button that fails counts as not pressed. *)
Lemma failed_poll_run (w : world) (e : exn) :
  fst (get_button_pressed w) = Raise e ->
  exists w',
    try_except get_button_pressed (fun _ => ret false) w = (Ret false, w')
    /\ trace w' = trace w ++ [I2cRead (addr w) REG_BUTTON 1].
Proof.
  intros H. pose proof (get_button_pressed_trace w) as Ht.
  unfold try_except.
  destruct (get_button_pressed w) as [o w']. cbn in H, Ht. subst o.
  exists w'. now split.
Qed.

(** A poll of a button register that does not answer fails. *)
Lemma nacked_poll_raises (w : world) :
  nacked REG_BUTTON w -> fst (get_button_pressed w) = Raise OSError.
Proof.
  intros H. destruct (read_block_nacked REG_BUTTON 1 w H) as [w' Hw'].
  unfold get_button_pressed. now rewrite (bind_raise_run _ Hw').
Qed.

Lemma tare_calls_app (t1 t2 : list event) :
  tare_calls (t1 ++ t2) = (tare_calls t1 + tare_calls t2)%nat.
Proof. unfold tare_calls. now rewrite filter_app, length_app. Qed.

(** C9. When a due poll of the button fails, the button service issues
    no tare and records the button as not pressed, whatever it had
    recorded before.  So with the button held throughout (every poll
    that succeeds reads pressed) a second tare is issued once a failed
    poll is followed by a successful one: the polls pressed, failed,
    failed, pressed give two tares, where four polls that read pressed
    give one. *)
Theorem failed_poll_forgets_press :
  (forall (a : args) (t : float) (st : locals) (w : world) (e : exn),
      (BTN_SAMPLE_SECS <=? t - last_sample_time st)%float = true ->
      fst (get_button_pressed w) = Raise e ->
      exists w',
        button_tare a t st w = (Ret (Locals (current_path st) false t), w')
        /\ tare_calls (trace w') = tare_calls (trace w))
  /\ (exists polls,
         Forall (fun r => r = Nack \/ r = poll_reply true) polls
         /\ tare_calls (trace (bench polls 3)) = 2%nat)
  /\ tares_for [true; true; true; true] = 1%nat.
Proof.
  split; [| split].
  - intros a t st w e Hdue Hfail.
    destruct (failed_poll_run w e Hfail) as (w' & Hpoll & Htrace).
    exists w'. split.
    + unfold button_tare. rewrite Hdue, (bind_ret_run _ Hpoll). reflexivity.
    + rewrite Htrace, tare_calls_app. cbn. lia.
  - exists [poll_reply true; Nack; Nack; poll_reply true]. split.
    + repeat (apply Forall_cons; [first [now left | now right] |]).
      apply Forall_nil.
    + vm_compute. reflexivity.
  - vm_compute. reflexivity.
Qed.

(** The theorem on a service that had the button recorded as pressed and
    whose poll is not answered. *)
Lemma failed_poll_forgets_press_witness :
  exists w',
    button_tare bench_args 1000 (Locals [] true 0) (device [Nack] 1)
    = (Ret (Locals [] false 1000), w')
    /\ tare_calls (trace w') = tare_calls (trace (device [Nack] 1)).
Proof.
  apply (proj1 failed_poll_forgets_press
               bench_args 1000%float (Locals [] true 0) (device [Nack] 1)
               OSError).
  - reflexivity.
  - apply nacked_poll_raises. exact I.
Defined.

(** *** What the button service does at one poll *)

Lemma tare_calls_snoc (t : list event) (e : event) :
  tare_calls (t ++ [e]) = (tare_calls t + (if is_tare e then 1 else 0))%nat.
Proof.
  rewrite tare_calls_app. unfold tare_calls at 2. cbn.
  now destruct (is_tare e).
Qed.

Lemma untared_refl (w : world) : untared w w.
Proof. reflexivity. Qed.

Lemma untared_trans (w1 w2 w3 : world) :
  untared w1 w2 -> untared w2 w3 -> untared w1 w3.
Proof. unfold untared. congruence. Qed.

Lemma untared_emit (e : event) : is_tare e = false -> framed untared (emit e).
Proof.
  intros He w. unfold untared. cbn -[tare_calls].
  rewrite tare_calls_snoc, He. lia.
Qed.

Lemma untared_poll : framed untared get_button_pressed.
Proof.
  intros w. unfold untared.
  rewrite get_button_pressed_trace, tare_calls_snoc. cbn. lia.
Qed.

Lemma untared_guarded_poll :
  framed untared (try_except get_button_pressed (fun _ => ret false)).
Proof.
  apply (framed_try untared untared_trans); [apply untared_poll |].
  intros e. apply (framed_ret untared untared_refl).
Qed.

Lemma untared_wait_release_loop (fuel : nat) :
  framed untared (wait_release_loop fuel).
Proof.
  induction fuel as [| fuel IH]; [apply (framed_ret untared untared_refl) |].
  cbn [wait_release_loop]. apply (framed_bind untared untared_trans).
  - apply (framed_try untared untared_trans).
    + apply (framed_bind untared untared_trans); [apply untared_poll |].
      intros pressed. apply (framed_ret untared untared_refl).
    + intros e. apply (framed_ret untared untared_refl).
  - intros stop. apply (framed_if untared);
      [apply (framed_ret untared untared_refl) |].
    apply (framed_bind untared untared_trans);
      [now apply untared_emit | intros _; apply IH].
Qed.

(** A call of [tare()] is one write of 1 to the offset register,
    whatever comes of it. *)
Lemma tare_trace (w : world) :
  trace (snd (tare w))
  = trace w ++ [I2cWrite (addr w) REG_OFFSET_TARE [1]].
Proof.
  unfold tare, _write_block, write_i2c_block_data, bind, self_addr, emit,
    transact.
  cbn. destruct (bus w REG_OFFSET_TARE) as [| [| data] rest]; reflexivity.
Qed.

(** X4. While the button is recorded as pressed the button service
    calls no [tare()], whatever its poll reads: a press that is held
    does not fire again. *)
Theorem held_press_not_retared
        (a : args) (t : float) (st : locals) (w : world) :
  prev_pressed st = true ->
  tare_calls (trace (snd (button_tare a t st w))) = tare_calls (trace w).
Proof.
  intros Hprev. unfold button_tare. rewrite Hprev.
  destruct (BTN_SAMPLE_SECS <=? t - last_sample_time st)%float;
    [| reflexivity].
  apply bind_post; intros pressed w1 E;
    pose proof (untared_guarded_poll w) as Hpoll; rewrite E in Hpoll;
    [| exact Hpoll].
  rewrite andb_false_r. exact Hpoll.
Qed.

(** X5. When a due poll reads pressed and the button was recorded as
    not pressed, the button service calls [tare()] exactly once,
    whether the device acknowledges it or not, and records the button
    as pressed. *)
Theorem rising_edge_tared_once
        (a : args) (t : float) (st : locals) (w : world) :
  (BTN_SAMPLE_SECS <=? t - last_sample_time st)%float = true ->
  prev_pressed st = false ->
  fst (get_button_pressed w) = Ret true ->
  exists w',
    button_tare a t st w = (Ret (Locals (current_path st) true t), w')
    /\ tare_calls (trace w') = S (tare_calls (trace w)).
Proof.
  intros Hdue Hprev Hpoll.
  pose proof (untared_poll w) as Hw1.
  destruct (get_button_pressed w) as [o w1] eqn:Epoll.
  cbn in Hpoll, Hw1. subst o.
  assert (Eguard : try_except get_button_pressed (fun _ => ret false) w
                   = (Ret true, w1))
    by (unfold try_except; now rewrite Epoll).
  unfold button_tare. rewrite Hdue, Hprev, (bind_ret_run _ Eguard).
  cbn [andb negb].
  set (rest := ((if print_flag a then print InfoButtonTare else ret tt) ;;
                sleep BTN_AFTER_TARE_SLEEP ;;
                (if BTN_WAIT_RELEASE then wait_release else ret tt))).
  assert (Hrest : framed untared rest).
  { unfold rest. apply (framed_bind untared untared_trans).
    - apply (framed_if untared);
        [now apply untared_emit | apply (framed_ret untared untared_refl)].
    - intros _. apply (framed_bind untared untared_trans);
        [now apply untared_emit | intros _].
      intros w0. apply untared_wait_release_loop. }
  assert (Htare : tare_calls (trace (snd (tare w1)))
                  = S (tare_calls (trace w1)))
    by (rewrite tare_trace, tare_calls_snoc; cbn; lia).
  assert (Hbody :
            exists w2,
              try_except (tare ;; rest) (fun _ => print WarnButtonTareFailed) w1
              = (Ret tt, w2)
              /\ tare_calls (trace w2) = S (tare_calls (trace w))).
  { unfold try_except, bind.
    destruct (tare w1) as [[[] | e] w2]; cbn [snd] in Htare.
    - specialize (Hrest w2). unfold untared in Hrest.
      destruct (rest w2) as [[[] | e] w3]; cbn [snd] in Hrest.
      + eexists. split; [reflexivity |]. unfold untared in Hw1. lia.
      + eexists. split; [reflexivity |]. cbn -[tare_calls].
        rewrite tare_calls_snoc. cbn [is_tare]. unfold untared in Hw1. lia.
    - eexists. split; [reflexivity |]. cbn -[tare_calls].
      rewrite tare_calls_snoc. cbn [is_tare]. unfold untared in Hw1. lia. }
  destruct Hbody as (w2 & Ebody & Hcount).
  exists w2. split; [| exact Hcount].
  fold rest. now rewrite (bind_ret_run _ Ebody).
Qed.

(** C1, at the inputs where the code leaves it.  With polls that read
    released, pressed, released, pressed, the first press is tared and
    its release is seen by the loop that waits for it; the button is
    then recorded as pressed, and the second press gets no tare: one
    tare for two rising edges.  The same holds of pressed, released,
    pressed, and of a press that follows pressed, pressed, pressed,
    released, a sequence that by itself gives its one tare. *)
Theorem press_after_awaited_release_not_tared :
  tares_for [false; true; false; true] = 1%nat
  /\ rising_edges false [false; true; false; true] = 2%nat
  /\ tares_for [true; false; true] = 1%nat
  /\ rising_edges false [true; false; true] = 2%nat
  /\ tares_for [true; true; true; false] = 1%nat
  /\ tares_for [true; true; true; false; true] = 1%nat
  /\ rising_edges false [true; true; true; false; true] = 2%nat.
Proof. vm_compute. repeat split. Qed.

End Button.

(** The theorem on a button held since the last poll. *)
Lemma held_press_witness :
  tare_calls
    (trace (snd (button_tare bench_args 1000 (Locals [] true 0)
                             (device [poll_reply true] 1))))
  = tare_calls (trace (device [poll_reply true] 1)).
Proof.
  apply (held_press_not_retared bench_args 1000%float (Locals [] true 0)
           (device [poll_reply true] 1)).
  reflexivity.
Defined.

(** The theorem on a press that is released by the next poll. *)
Lemma rising_edge_witness :
  exists w',
    button_tare bench_args 1000 (Locals [] false 0)
                (device [poll_reply true; poll_reply false] 1)
    = (Ret (Locals [] true 1000), w')
    /\ tare_calls (trace w')
       = S (tare_calls
              (trace (device [poll_reply true; poll_reply false] 1))).
Proof.
  apply (rising_edge_tared_once bench_args 1000%float (Locals [] false 0)
           (device [poll_reply true; poll_reply false] 1));
    reflexivity.
Defined.

(** ** The cadence of the polls *)

(** C8, at a run of four turns with the button idle.  Every turn writes
    its row and then polls the button once: the polls come at the
    cadence of the rows, not faster. *)
Theorem idle_button_polled_once_per_row :
  beats (trace (bench (map poll_reply [false; false; false; false]) 4))
  = [Row; Poll; Row; Poll; Row; Poll; Row; Poll].
Proof. vm_compute. reflexivity. Qed.

Section Cadence.

Import MiniScale.

Variable isalnum_wide : N -> bool.

Lemma calm_refl (w : world) : calm w w.
Proof. split; reflexivity. Qed.

Lemma calm_trans (w1 w2 w3 : world) : calm w1 w2 -> calm w2 w3 -> calm w1 w3.
Proof. unfold calm. intros [] []. split; congruence. Qed.

Lemma calm_idle (w w' : world) : calm w w' -> idle w -> idle w'.
Proof. unfold calm, idle. intros [_ H]. now rewrite H. Qed.

Lemma poll_count_snoc (t : list event) (e : event) :
  poll_count (t ++ [e])
  = (poll_count t + (if is_poll e then 1 else 0))%nat.
Proof.
  unfold poll_count. rewrite filter_app, length_app. cbn.
  now destruct (is_poll e).
Qed.

Lemma calm_emit (e : event) : is_poll e = false -> framed calm (emit e).
Proof.
  intros He w. split; [| reflexivity].
  cbn -[poll_count]. rewrite poll_count_snoc, He. lia.
Qed.

Lemma calm_read_block (reg : Z) (n : nat) :
  reg <> REG_BUTTON -> framed calm (_read_block reg n).
Proof.
  intros Hreg w. split.
  - assert (E : (reg =? REG_BUTTON) = false) by now apply Z.eqb_neq.
    rewrite read_block_run.
    destruct (bus w reg) as [| [| data] rest]; cbn -[poll_count];
      rewrite poll_count_snoc; cbn [is_poll]; rewrite E; lia.
  - apply read_block_other. congruence.
Qed.

(** A read of a register other than the button's, and its decoding. *)
Lemma calm_decoded_read {A} (reg : Z) (n : nat) (k : list Z -> M A) :
  reg <> REG_BUTTON ->
  (forall b, framed calm (k b)) ->
  framed calm (bind (_read_block reg n) k).
Proof.
  intros Hreg Hk.
  apply (framed_bind calm calm_trans); [now apply calm_read_block | exact Hk].
Qed.

Lemma calm_sample (a : args) : framed calm (sample a).
Proof.
  unfold sample. apply (framed_try calm calm_trans).
  - unfold read_weights, get_weight_float, get_weight_int, get_raw_adc.
    apply (framed_bind calm calm_trans);
      [apply calm_decoded_read;
       [discriminate | intros; apply (framed_lift calm calm_refl)] |].
    intros f. apply (framed_bind calm calm_trans);
      [apply calm_decoded_read;
       [discriminate | intros; apply (framed_lift calm calm_refl)] |].
    intros i. apply (framed_bind calm calm_trans);
      [apply calm_decoded_read;
       [discriminate | intros; apply (framed_ret calm calm_refl)] |].
    intros adc. apply (framed_ret calm calm_refl).
  - intros e. apply (framed_bind calm calm_trans).
    + now apply calm_emit.
    + intros _. apply (framed_ret calm calm_refl).
Qed.

Lemma calm_writerow (fp : pystr) (row : list pystr) :
  framed calm (writerow fp row).
Proof.
  intros w. split; [| reflexivity].
  cbn -[poll_count]. rewrite poll_count_snoc. cbn [is_poll]. lia.
Qed.

Lemma calm_rotate (a : args) (c : clock) (st : locals) :
  framed calm (rotate isalnum_wide a c st).
Proof.
  intros w. unfold rotate.
  destruct (negb _); [| apply calm_refl].
  unfold bind. rewrite ensure_header_run.
  destruct (_ || _); [| apply calm_refl].
  split; [| reflexivity].
  cbn -[poll_count]. rewrite poll_count_snoc. cbn [is_poll]. lia.
Qed.

Lemma calm_print_if (b : bool) (m : message) :
  framed calm (if b then print m else ret tt).
Proof.
  apply (framed_if calm);
    [now apply calm_emit | apply (framed_ret calm calm_refl)].
Qed.

(** A poll while the button is idle: it reads not pressed, and is one
    poll. *)
Lemma idle_poll_run (w : world) :
  idle w ->
  exists w',
    try_except get_button_pressed (fun _ => ret false) w = (Ret false, w')
    /\ poll_count (trace w') = S (poll_count (trace w))
    /\ idle w'.
Proof.
  unfold idle, try_except, get_button_pressed, bind.
  rewrite read_block_run.
  assert (Hcount : forall dev,
             poll_count (trace w ++ [I2cRead dev REG_BUTTON 1])
             = S (poll_count (trace w)))
    by (intros; rewrite poll_count_snoc; cbn; lia).
  destruct (bus w REG_BUTTON) as [| [| data] rest] eqn:Eq; intros Hidle.
  - eexists. split; [reflexivity |]. split; [apply Hcount |].
    cbn. now rewrite Eq.
  - eexists. split; [reflexivity |]. split; [apply Hcount |].
    cbn. now inversion Hidle.
  - inversion Hidle as [| r q Hr Hq]; subst.
    unfold lift, bytes_of.
    destruct (forallb is_byte data); cbn.
    + destruct data as [| v data]; cbn.
      * eexists. split; [reflexivity |]. split; [apply Hcount | exact Hq].
      * cbn in Hr. rewrite Hr.
        eexists. split; [reflexivity |]. split; [apply Hcount | exact Hq].
    + eexists. split; [reflexivity |]. split; [apply Hcount | exact Hq].
Qed.

(** The button service while the button is idle: at most one poll. *)
Lemma button_tare_idle (a : args) (t : float) (st : locals) (w : world) :
  idle w ->
  (poll_count (trace (snd (button_tare a t st w)))
   <= S (poll_count (trace w)))%nat
  /\ idle (snd (button_tare a t st w)).
Proof.
  intros Hidle. unfold button_tare.
  destruct (BTN_SAMPLE_SECS <=? t - last_sample_time st)%float.
  - destruct (idle_poll_run w Hidle) as (w' & Hpoll & Hcount & Hidle').
    rewrite (bind_ret_run _ Hpoll). cbn. rewrite Hcount. auto.
  - cbn. auto.
Qed.

(** One turn of the loop while the button is idle: at most one poll. *)
Lemma tick_idle (a : args) (c : clock) (st : locals) (w : world) :
  idle w ->
  (poll_count (trace (snd (tick isalnum_wide a c st w)))
   <= S (poll_count (trace w)))%nat
  /\ idle (snd (tick isalnum_wide a c st w)).
Proof.
  intros Hidle. unfold tick.
  assert (Hgo : forall w1, calm w w1 ->
                  (poll_count (trace w1) <= S (poll_count (trace w)))%nat
                  /\ idle w1).
  { intros w1 Hc. split; [destruct Hc as [-> _]; lia |].
    now apply calm_idle with w. }
  (* the rotation *)
  apply bind_post; intros st1 w1 E1;
    pose proof (calm_rotate a c st w) as C1; rewrite E1 in C1; cbn in C1;
    [| now apply Hgo].
  (* the sample *)
  apply bind_post; intros s w2 E2;
    pose proof (calm_trans _ _ _ C1 (calm_sample a w1)) as C2;
    rewrite E2 in C2; cbn in C2;
    [| now apply Hgo].
  destruct s as [[g_f32 g_i] adc].
  (* the row *)
  apply bind_post; intros u3 w3 E3;
    pose proof (calm_trans _ _ _ C2
                  (calm_writerow (current_path st1)
                     [ts c; format_3f g_f32; format_3f g_i; str_of_int adc]
                     w2)) as C3;
    rewrite E3 in C3; cbn in C3;
    [| now apply Hgo].
  apply bind_post; intros u4 w4 E4;
    pose proof (calm_trans _ _ _ C3
                  (calm_print_if (print_flag a) InfoSample w3)) as C4;
    rewrite E4 in C4; cbn in C4;
    [| now apply Hgo].
  (* the button *)
  destruct (Hgo w4 C4) as [_ Hidle4].
  destruct (button_tare_idle a (now c) st1 w4 Hidle4) as [Hcount Hidle5].
  destruct C4 as [E14 _].
  apply bind_post; intros st5 w5 E5; rewrite E5 in Hcount, Hidle5;
    cbn in Hcount, Hidle5; [| split; [lia | assumption]].
  (* the sleep *)
  unfold idle in *. unfold bind. rewrite sleep_run.
  destruct (sleep_check _) as [[] | e]; cbn -[poll_count];
    [rewrite poll_count_snoc; cbn [is_poll] |];
    (split; [lia | assumption]).
Qed.

(** X1. While the button is idle the loop polls it at most once a turn,
    whatever the arguments, the clock and the other registers: the
    polls are never more than the turns, each of which writes its
    row. *)
Theorem idle_loop_polls_at_most_once_a_turn
        (a : args) (cs : list clock) (st : locals) (w : world) :
  idle w ->
  (poll_count (trace (snd (main_loop isalnum_wide a cs st w)))
   <= poll_count (trace w) + length cs)%nat.
Proof.
  revert st w. induction cs as [| c cs IH]; intros st w Hidle.
  - cbn. lia.
  - cbn [main_loop length].
    destruct (tick_idle a c st w Hidle) as [Hcount Hidle1].
    apply bind_post; intros st1 w1 E1; rewrite E1 in Hcount, Hidle1;
      cbn in Hcount, Hidle1; [| lia].
    specialize (IH st1 w1 Hidle1). lia.
Qed.

End Cadence.

(** The theorem on the bench: four turns, the button never pressed. *)
Lemma idle_loop_witness :
  (poll_count
     (trace (snd (main_loop no_wide bench_args (seconds 4)
                            (Locals (lit "data/weight_data_2025-08-05.csv")
                                    false 0)
                            (device (map poll_reply [false; false; false; false])
                                    4))))
   <= poll_count
        (trace (device (map poll_reply [false; false; false; false]) 4))
      + length (seconds 4))%nat.
Proof.
  apply (idle_loop_polls_at_most_once_a_turn no_wide bench_args (seconds 4)).
  repeat constructor.
Defined.

(* ================================================================== *)
(** * Further properties of the driver *)

Section DriverEdges.

Import MiniScale.

(** A read is one event on the bus, whatever comes of it. *)
Lemma read_block_trace (reg : Z) (n : nat) (w : world) :
  trace (snd (_read_block reg n w)) = trace w ++ [I2cRead (addr w) reg n].
Proof.
  rewrite read_block_run.
  destruct (bus w reg) as [| [| data] rest]; reflexivity.
Qed.

(** A write is one event on the bus, whatever comes of it, and leaves
    the address of the client alone. *)
Lemma write_block_run (reg : Z) (data : list Z) (w : world) :
  trace (snd (_write_block reg data w))
  = trace w ++ [I2cWrite (addr w) reg data]
  /\ addr (snd (_write_block reg data w)) = addr w
  /\ (nacked reg w -> fst (_write_block reg data w) = Raise OSError)
  /\ (forall ack rest, bus w reg = Ack ack :: rest ->
        fst (_write_block reg data w) = Ret tt).
Proof.
  unfold _write_block, write_i2c_block_data, bind, self_addr, emit, transact,
    nacked.
  cbn. destruct (bus w reg) as [| [| ack] rest]; cbn;
    repeat split; try reflexivity; try contradiction; intros; discriminate.
Qed.

Lemma from_bytes_unsigned_bound (b : list Z) :
  all_bytes b ->
  0 <= from_bytes_unsigned b < 2 ^ (8 * Z.of_nat (length b)).
Proof.
  unfold all_bytes. induction b as [| x b IH]; cbn [forallb length].
  - intros _. cbn. lia.
  - intros H. apply andb_true_iff in H as [Hx Hb].
    specialize (IH Hb). unfold is_byte in Hx.
    apply andb_true_iff in Hx as [Hx0 Hx1].
    apply Z.leb_le in Hx0. apply Z.ltb_lt in Hx1.
    cbn [from_bytes_unsigned].
    replace (8 * Z.of_nat (S (length b))) with (8 + 8 * Z.of_nat (length b))
      by lia.
    rewrite Z.pow_add_r by lia. change (2 ^ 8) with 256. nia.
Qed.

(** The signed reading of a block of bytes is its two's complement
    value. *)
Lemma from_bytes_signed_range (b : list Z) :
  all_bytes b -> b <> [] ->
  let bits := 8 * Z.of_nat (length b) in
  - 2 ^ (bits - 1) <= from_bytes_signed b < 2 ^ (bits - 1)
  /\ from_bytes_signed b mod 2 ^ bits = from_bytes_unsigned b.
Proof.
  intros Hb Hne bits. pose proof (from_bytes_unsigned_bound b Hb) as Hu.
  fold bits in Hu. unfold from_bytes_signed. fold bits.
  assert (Hbits : 0 < bits)
    by (unfold bits; destruct b; [contradiction | cbn [length]; lia]).
  assert (Hpow : 2 ^ bits = 2 * 2 ^ (bits - 1)).
  { replace bits with (1 + (bits - 1)) at 1 by lia.
    rewrite Z.pow_add_r by lia. reflexivity. }
  destruct (bits =? 0) eqn:E0; [apply Z.eqb_eq in E0; lia |].
  destruct (from_bytes_unsigned b <? 2 ^ (bits - 1)) eqn:E.
  - apply Z.ltb_lt in E. split; [lia |]. apply Z.mod_small. lia.
  - apply Z.ltb_ge in E. split; [lia |].
    replace (from_bytes_unsigned b - 2 ^ bits)
      with (from_bytes_unsigned b + (-1) * 2 ^ bits) by lia.
    rewrite Z.mod_add by lia. apply Z.mod_small. lia.
Qed.

(** X6. On four bytes from the raw-count register [get_raw_adc] returns
    their little-endian two's complement value: an int32 that is
    congruent modulo [2^32] to [b0 + 256 b1 + 65536 b2 + 16777216 b3]. *)
Theorem get_raw_adc_int32 (b0 b1 b2 b3 : Z) (w : world) :
  all_bytes [b0; b1; b2; b3] ->
  exists adc,
    fst (get_raw_adc (answering REG_RAW_ADC (Ack [b0; b1; b2; b3]) w))
    = Ret adc
    /\ is_int32 adc
    /\ adc mod 2 ^ 32 = b0 + 256 * b1 + 65536 * b2 + 16777216 * b3.
Proof.
  intros Hb. exists (from_bytes_signed [b0; b1; b2; b3]).
  pose proof (read_block_answered REG_RAW_ADC 4 [b0; b1; b2; b3] w Hb)
    as Hread.
  split.
  - unfold get_raw_adc, bind.
    destruct (_read_block REG_RAW_ADC 4 _) as [o w1]. cbn in Hread.
    now subst o.
  - destruct (from_bytes_signed_range [b0; b1; b2; b3] Hb) as [Hr Hm];
      [discriminate |].
    cbn [length] in Hr, Hm.
    change (8 * Z.of_nat 4) with 32 in *. change (32 - 1) with 31 in *.
    split; [exact Hr |]. rewrite Hm. cbn [from_bytes_unsigned]. lia.
Qed.

(** The theorem on the count [-2]. *)
Lemma get_raw_adc_int32_witness :
  exists adc,
    fst (get_raw_adc
           (answering REG_RAW_ADC (Ack [254; 255; 255; 255])
                      (World 0x26 (fun _ => []) (fun _ => []) [])))
    = Ret adc
    /\ is_int32 adc
    /\ adc mod 2 ^ 32 = 254 + 256 * 255 + 65536 * 255 + 16777216 * 255.
Proof.
  apply (get_raw_adc_int32 254 255 255 255). reflexivity.
Defined.

(** X7. On four bytes from its register [get_weight_int] never fails
    to decode: it returns the int32 they encode, as a float, divided by
    [100.0]; and on four bytes [get_weight_float] returns a float. *)
Theorem answered_weights_decode (data : list Z) (w : world) :
  all_bytes data -> length data = 4%nat ->
  fst (get_weight_int (answering REG_WEIGHT_X100_I32 (Ack data) w))
  = Ret (Z2float (from_bytes_signed data) / 100)%float
  /\ is_int32 (from_bytes_signed data)
  /\ exists x,
       fst (get_weight_float (answering REG_WEIGHT_F32 (Ack data) w)) = Ret x.
Proof.
  intros Hb Hlen.
  assert (Hne : data <> []) by (destruct data; [discriminate | discriminate]).
  destruct (from_bytes_signed_range data Hb Hne) as [Hr _].
  rewrite Hlen in Hr. change (8 * Z.of_nat 4 - 1) with 31 in Hr.
  split; [| split; [exact Hr |]].
  - pose proof (read_block_answered REG_WEIGHT_X100_I32 4 data w Hb) as Hread.
    unfold get_weight_int, bind.
    destruct (_read_block REG_WEIGHT_X100_I32 4 _) as [o w1]. cbn in Hread.
    subst o. cbn [lift fst].
    unfold int_truediv_float, obind.
    rewrite int_to_float_in_range; [reflexivity |].
    assert (2 ^ 31 < float_overflow_bound) by (vm_compute; reflexivity).
    lia.
  - pose proof (read_block_answered REG_WEIGHT_F32 4 data w Hb) as Hread.
    unfold get_weight_float, bind.
    destruct (_read_block REG_WEIGHT_F32 4 _) as [o w1]. cbn in Hread.
    subst o. cbn [lift fst]. unfold unpack_f32. rewrite Hlen.
    cbn [Nat.eqb negb]. eexists. reflexivity.
Qed.

(** The theorem on the scaled weight [-12.34] g. *)
Lemma answered_weights_decode_witness :
  fst (get_weight_int
         (answering REG_WEIGHT_X100_I32 (Ack [46; 251; 255; 255])
                    (World 0x26 (fun _ => []) (fun _ => []) [])))
  = Ret (PrimFloat.div (Z2float (from_bytes_signed [46; 251; 255; 255])) 100).
Proof.
  apply (answered_weights_decode [46; 251; 255; 255]
           (World 0x26 (fun _ => []) (fun _ => []) [])); reflexivity.
Defined.

End DriverEdges.

Section DriverWrites.

Import MiniScale.

Lemma is_byte_land (v : Z) : is_byte (Z.land v 0xFF) = true.
Proof.
  change 0xFF with (Z.ones 8). rewrite Z.land_ones by lia.
  pose proof (Z.mod_pos_bound v (2 ^ 8) eq_refl) as H.
  unfold is_byte. apply andb_true_iff. split.
  - apply Z.leb_le. lia.
  - apply Z.ltb_lt. change 256 with (2 ^ 8). lia.
Qed.

(** An assignment to a slot of a list keeps its length, and keeps it a
    block of bytes when the value is a byte. *)
Lemma setitem_keeps (l l' : list Z) (i : nat) (v : Z) :
  setitem l i v = Ret l' ->
  length l' = length l
  /\ (all_bytes l -> is_byte v = true -> all_bytes l').
Proof.
  unfold all_bytes. revert i l'.
  induction l as [| x l IH]; intros i l'; [discriminate |].
  destruct i as [| i]; cbn [setitem].
  - intros E. injection E as <-. cbn. split; [reflexivity |].
    intros H Hv. apply andb_true_iff in H as [_ H]. now rewrite Hv.
  - destruct (setitem l i v) as [r | e] eqn:E; cbn; [| discriminate].
    intros E'. injection E' as <-. destruct (IH i r E) as [Hlen Hbytes].
    cbn. split; [now rewrite Hlen |].
    intros H Hv. apply andb_true_iff in H as [Hx H].
    rewrite Hx. cbn. now apply Hbytes.
Qed.

Lemma overwrite_keeps (arg : option Z) (i : nat) (cur cur' : list Z) :
  overwrite arg i cur = Ret cur' ->
  length cur' = length cur
  /\ (all_bytes cur -> all_bytes cur')
  /\ (arg = None -> cur' = cur).
Proof.
  destruct arg as [v |]; cbn [overwrite].
  - intros E. destruct (setitem_keeps cur cur' i (Z.land v 0xFF) E)
      as [Hlen Hbytes].
    split; [exact Hlen |]. split; [| discriminate].
    intros H. apply Hbytes; [exact H | apply is_byte_land].
  - intros E. injection E as <-. auto.
Qed.

Lemma bind_lift_run {A B} (o : outcome A) (k : A -> M B) (w : world) :
  bind (lift o) k w
  = match o with
    | Ret a => k a w
    | Raise e => (Raise e, w)
    end.
Proof. unfold bind, lift. now destruct o. Qed.

(** X8. When the read of the current filter block fails, [set_filters]
    raises and writes nothing: the read is all it has done on the
    bus. *)
Theorem set_filters_failed_read_writes_nothing
        (lp_enabled avg_level ema_alpha : option Z) (w : world) :
  nacked REG_FILTERS w ->
  fst (set_filters lp_enabled avg_level ema_alpha w) = Raise OSError
  /\ trace (snd (set_filters lp_enabled avg_level ema_alpha w))
     = trace w ++ [I2cRead (addr w) REG_FILTERS 3].
Proof.
  intros H. pose proof (read_block_trace REG_FILTERS 3 w) as Ht.
  destruct (read_block_nacked REG_FILTERS 3 w H) as [w' Hw'].
  unfold set_filters. rewrite (bind_raise_run _ Hw').
  rewrite Hw' in Ht. split; [reflexivity | exact Ht].
Qed.

(** The theorem on a device that has left the bus. *)
Lemma set_filters_failed_read_witness :
  fst (set_filters None (Some 20) None
                   (World 0x26 (fun _ => []) (fun _ => []) []))
  = Raise OSError
  /\ trace (snd (set_filters None (Some 20) None
                             (World 0x26 (fun _ => []) (fun _ => []) [])))
     = [I2cRead 0x26 REG_FILTERS 3].
Proof.
  apply (set_filters_failed_read_writes_nothing None (Some 20) None
           (World 0x26 (fun _ => []) (fun _ => []) [])).
  exact I.
Defined.

(** X9. Whatever the device answers and whatever the arguments,
    [set_filters] does one read and at most one write; a write goes to
    the filter register, and its payload is a block of bytes of the
    length of the block read, which it equals when no argument was
    given. *)
Theorem set_filters_payload_well_formed
        (lp_enabled avg_level ema_alpha : option Z) (w : world) :
  let w' := snd (set_filters lp_enabled avg_level ema_alpha w) in
  trace w' = trace w ++ [I2cRead (addr w) REG_FILTERS 3]
  \/ exists data rest payload,
       bus w REG_FILTERS = Ack data :: rest
       /\ trace w' = trace w ++ [I2cRead (addr w) REG_FILTERS 3;
                                 I2cWrite (addr w) REG_FILTERS payload]
       /\ all_bytes payload
       /\ length payload = length data
       /\ (lp_enabled = None -> avg_level = None -> ema_alpha = None ->
           payload = data).
Proof.
  cbn zeta. unfold set_filters.
  pose proof (read_block_trace REG_FILTERS 3 w) as Ht.
  pose proof (read_block_run REG_FILTERS 3 w) as Hrun.
  destruct (_read_block REG_FILTERS 3 w) as [[cur | e] w1] eqn:Eread;
    cbn [snd] in Ht;
    [rewrite (bind_ret_run _ Eread)
    | rewrite (bind_raise_run _ Eread); now left].
  assert (Hcur : exists rest,
             bus w REG_FILTERS = Ack cur :: rest /\ all_bytes cur
             /\ addr w1 = addr w).
  { destruct (bus w REG_FILTERS) as [| [| data] rest];
      try discriminate.
    unfold bytes_of in Hrun.
    destruct (forallb is_byte data) eqn:Eb; [| discriminate].
    injection Hrun as Hc Hw1. subst cur w1. exists rest. auto. }
  destruct Hcur as (rest & Hbus & Hbytes & Haddr).
  rewrite bind_lift_run.
  destruct (overwrite lp_enabled 0 cur) as [c1 | e] eqn:E1; [| now left].
  destruct (overwrite_keeps _ _ _ _ E1) as (L1 & B1 & N1).
  rewrite bind_lift_run.
  destruct (overwrite avg_level 1 c1) as [c2 | e] eqn:E2; [| now left].
  destruct (overwrite_keeps _ _ _ _ E2) as (L2 & B2 & N2).
  rewrite bind_lift_run.
  destruct (overwrite ema_alpha 2 c2) as [c3 | e] eqn:E3; [| now left].
  destruct (overwrite_keeps _ _ _ _ E3) as (L3 & B3 & N3).
  right. exists cur, rest, c3.
  destruct (write_block_run REG_FILTERS c3 w1) as (Hw & _).
  split; [exact Hbus |]. split.
  - rewrite Hw, Ht, Haddr, <- app_assoc. reflexivity.
  - split; [auto |]. split; [congruence |].
    intros -> -> ->. rewrite N3, N2, N1; reflexivity.
Qed.

(** X10. When the device does not acknowledge the new address,
    [set_i2c_address] raises after its one write and the client keeps
    the address it had. *)
Theorem set_i2c_address_failure_keeps_address (new_addr : Z) (w : world) :
  nacked REG_I2C_ADDRESS w ->
  let r := set_i2c_address new_addr w in
  fst r = Raise OSError
  /\ addr (snd r) = addr w
  /\ trace (snd r)
     = trace w ++ [I2cWrite (addr w) REG_I2C_ADDRESS [new_addr mod 128]].
Proof.
  intros H. cbn zeta.
  assert (E : Z.land new_addr 0x7F = new_addr mod 128)
    by (change 0x7F with (Z.ones 7); now rewrite Z.land_ones by lia).
  destruct (write_block_run REG_I2C_ADDRESS [Z.land new_addr 0x7F] w)
    as (Ht & Ha & Hraise & _).
  specialize (Hraise H). unfold set_i2c_address, bind.
  destruct (_write_block REG_I2C_ADDRESS _ w) as [o w1].
  cbn in Ht, Ha, Hraise. subst o. cbn. rewrite <- E. auto.
Qed.

(** The theorem on a device that has left the bus. *)
Lemma set_i2c_address_failure_witness :
  let w := World 0x26 (fun _ => []) (fun _ => []) [] in
  fst (set_i2c_address 0x30 w) = Raise OSError
  /\ addr (snd (set_i2c_address 0x30 w)) = addr w
  /\ trace (snd (set_i2c_address 0x30 w))
     = trace w ++ [I2cWrite (addr w) REG_I2C_ADDRESS [0x30 mod 128]].
Proof.
  cbn zeta.
  apply (set_i2c_address_failure_keeps_address 0x30
           (World 0x26 (fun _ => []) (fun _ => []) [])).
  exact I.
Defined.

(** X11. Once the device has acknowledged the new address, every later
    read and write of the client is addressed to it. *)
Theorem set_i2c_address_rebinds_traffic
        (new_addr : Z) (ack : list Z) (w : world)
        (reg : Z) (n : nat) (data : list Z) :
  let w1 :=
    snd (set_i2c_address new_addr (answering REG_I2C_ADDRESS (Ack ack) w)) in
  trace (snd (_read_block reg n w1))
  = trace w1 ++ [I2cRead (new_addr mod 128) reg n]
  /\ trace (snd (_write_block reg data w1))
     = trace w1 ++ [I2cWrite (new_addr mod 128) reg data].
Proof.
  cbn zeta.
  assert (E : Z.land new_addr 0x7F = new_addr mod 128)
    by (change 0x7F with (Z.ones 7); now rewrite Z.land_ones by lia).
  set (w1 := snd (set_i2c_address new_addr _)).
  assert (Ha : addr w1 = new_addr mod 128).
  { unfold w1, set_i2c_address, _write_block, write_i2c_block_data,
      assign_addr, bind, self_addr, emit, transact, answering.
    cbn. exact E. }
  rewrite read_block_trace, Ha.
  destruct (write_block_run reg data w1) as (Hw & _). rewrite Hw, Ha.
  auto.
Qed.

(** X12. [set_led] wraps each channel modulo 256, negative and oversize
    values included, and does one write of the three bytes. *)
Theorem set_led_wraps (r g b : Z) (w : world) :
  trace (snd (set_led r g b w))
  = trace w ++ [I2cWrite (addr w) REG_LED_RGB
                         [r mod 256; g mod 256; b mod 256]]
  /\ all_bytes [r mod 256; g mod 256; b mod 256].
Proof.
  assert (E : forall v, Z.land v 0xFF = v mod 256)
    by (intros v; change 0xFF with (Z.ones 8); now rewrite Z.land_ones by lia).
  unfold set_led.
  destruct (write_block_run REG_LED_RGB
              [Z.land r 0xFF; Z.land g 0xFF; Z.land b 0xFF] w) as (Hw & _).
  rewrite Hw, !E. split; [reflexivity |].
  unfold all_bytes. cbn [forallb]. rewrite <- !E, !is_byte_land. reflexivity.
Qed.

End DriverWrites.

(* ================================================================== *)
(** * Further properties of the file names, the header and the rows *)

Section NamesMore.

Variable isalnum_wide : N -> bool.

Lemma kept_underscore : kept isalnum_wide underscore = true.
Proof. reflexivity. Qed.

(** What [sanitize_tag] does to one character. *)
Lemma sanitize_tag_map (tag : pystr) :
  sanitize_tag isalnum_wide tag
  = map (fun c => if kept isalnum_wide c then c else underscore) tag.
Proof.
  unfold sanitize_tag. apply map_ext. intros c. now rewrite kept_eq.
Qed.

(** X13. A sanitized tag holds only characters that [sanitize_tag]
    keeps, so none of its ASCII characters is outside [[A-Za-z0-9_-]]:
    no path separator, no dot, no blank, no control character.
    Sanitizing it again changes nothing.  Distinct tags may still
    share one sanitized form. *)
Theorem sanitize_tag_safe (tag : pystr) :
  Forall (fun c => kept isalnum_wide c = true
                   /\ ((c < 128)%N -> in_safe_set c = true))
         (sanitize_tag isalnum_wide tag)
  /\ sanitize_tag isalnum_wide (sanitize_tag isalnum_wide tag)
     = sanitize_tag isalnum_wide tag
  /\ (lit "a b" <> lit "a_b"
      /\ sanitize_tag isalnum_wide (lit "a b")
         = sanitize_tag isalnum_wide (lit "a_b")).
Proof.
  split; [| split].
  - rewrite sanitize_tag_map. apply Forall_map, Forall_forall.
    intros c _.
    assert (H : kept isalnum_wide
                     (if kept isalnum_wide c then c else underscore) = true)
      by (destruct (kept isalnum_wide c) eqn:E;
          [exact E | apply kept_underscore]).
    split; [exact H |].
    intros Hc. now rewrite <- (kept_ascii isalnum_wide) by assumption.
  - rewrite !sanitize_tag_map, map_map. apply map_ext. intros c.
    destruct (kept isalnum_wide c) eqn:E; [now rewrite E |].
    now rewrite kept_underscore.
  - split; [discriminate | reflexivity].
Qed.

Lemma kept_not_slash (c : N) : kept isalnum_wide c = true -> c <> 47%N.
Proof. intros H ->. discriminate H. Qed.

Lemma base_name_split (name day : pystr) :
  exists stem,
    base_name isalnum_wide name day = lit "weight_data_" ++ stem ++ day ++ lit ".csv"
    /\ Forall (fun c => c <> 47%N) stem
    /\ forall day', base_name isalnum_wide name day'
                    = lit "weight_data_" ++ stem ++ day' ++ lit ".csv".
Proof.
  unfold base_name.
  exists (if (length (sanitize_tag isalnum_wide name) =? 0)%nat then []
          else sanitize_tag isalnum_wide name ++ lit "_").
  split; [reflexivity |]. split; [| reflexivity].
  destruct (length _ =? 0)%nat; [constructor |].
  apply Forall_app. split.
  - destruct (sanitize_tag_safe name) as [H _].
    eapply Forall_impl; [| exact H]. intros c [Hc _].
    now apply kept_not_slash.
  - repeat constructor; discriminate.
Qed.

(** [endswith] finds exactly the strings that end with the
    character. *)
Lemma endswith_char_spec (c : N) (s : pystr) :
  endswith_char c s = true <-> exists d, s = d ++ [c].
Proof.
  unfold endswith_char. split.
  - destruct (rev s) as [| b r] eqn:E; [discriminate |].
    intros H. apply N.eqb_eq in H. subst b. exists (rev r).
    rewrite <- (rev_involutive s), E. reflexivity.
  - intros [d ->]. rewrite rev_unit. apply N.eqb_refl.
Qed.

(** X14. The path of the day is the data directory followed by the file
    name, with a separator between the two; the separator is left out
    when, and only when, the directory is empty or ends with one.  So
    the name tag cannot replace the directory.  When the date holds no
    separator the file name holds none, so the file is in the data
    directory itself. *)
Theorem today_path_under_data_dir (data_dir name day : pystr) :
  exists sep,
    (sep = [] \/ sep = lit "/")
    /\ (sep = [] <-> data_dir = [] \/ exists d, data_dir = d ++ lit "/")
    /\ today_path isalnum_wide data_dir name day
       = data_dir ++ sep ++ base_name isalnum_wide name day
    /\ (Forall (fun c => c <> 47%N) day ->
        Forall (fun c => c <> 47%N) (base_name isalnum_wide name day)).
Proof.
  destruct (base_name_split name day) as (stem & E & Hstem & _).
  assert (Hstart : startswith (lit "/") (base_name isalnum_wide name day)
                   = false) by (rewrite E; reflexivity).
  assert (Hbase : Forall (fun c => c <> 47%N) day ->
                  Forall (fun c => c <> 47%N)
                         (base_name isalnum_wide name day)).
  { intros Hday. rewrite E.
    repeat (apply Forall_app; split); auto;
      repeat constructor; discriminate. }
  assert (Hbare : (length data_dir =? 0)%nat || endswith_char 47 data_dir
                  = true
                  <-> data_dir = [] \/ exists d, data_dir = d ++ lit "/").
  { rewrite orb_true_iff, endswith_char_spec, Nat.eqb_eq, length_zero_iff_nil.
    reflexivity. }
  unfold today_path, path_join. rewrite Hstart.
  destruct ((length data_dir =? 0)%nat || endswith_char 47 data_dir).
  - exists []. split; [now left |]. split; [| split; [reflexivity | exact Hbase]].
    split; [intros _; now apply Hbare | reflexivity].
  - exists (lit "/"). split; [now right |].
    split; [| split; [reflexivity | exact Hbase]].
    split; [discriminate |]. intros H. apply Hbare in H. discriminate H.
Qed.

(** X15. Two different dates give two different paths, whatever the
    directory and the name tag: a change of date is a change of
    file. *)
Theorem today_path_distinct_days (data_dir name day1 day2 : pystr) :
  day1 <> day2 ->
  today_path isalnum_wide data_dir name day1
  <> today_path isalnum_wide data_dir name day2.
Proof.
  intros Hne Heq. apply Hne.
  destruct (base_name_split name day1) as (stem & E1 & _ & E2).
  specialize (E2 day2).
  assert (Hs1 : startswith (lit "/") (base_name isalnum_wide name day1)
                = false) by (rewrite E1; reflexivity).
  assert (Hs2 : startswith (lit "/") (base_name isalnum_wide name day2)
                = false) by (rewrite E2; reflexivity).
  unfold today_path, path_join in Heq. rewrite Hs1, Hs2, E1, E2 in Heq.
  destruct ((length data_dir =? 0)%nat || endswith_char 47 data_dir).
  - apply app_inv_head in Heq. apply app_inv_head in Heq.
    apply app_inv_head in Heq. now apply app_inv_tail in Heq.
  - apply app_inv_head in Heq. apply app_inv_head in Heq.
    apply app_inv_head in Heq. apply app_inv_head in Heq.
    now apply app_inv_tail in Heq.
Qed.

End NamesMore.

(** The theorem on the default directory, which does not end with a
    separator: one is put in. *)
Lemma today_path_under_data_dir_witness :
  today_path no_wide (lit "data") (lit "scaleA") (lit "2025-08-05")
  = lit "data/weight_data_scaleA_2025-08-05.csv".
Proof.
  destruct (today_path_under_data_dir no_wide (lit "data") (lit "scaleA")
              (lit "2025-08-05")) as (sep & [-> | ->] & [Hsep _] & Hpath & _).
  - exfalso. destruct (Hsep eq_refl) as [H | [d H]]; [discriminate H |].
    apply (f_equal (@rev N)) in H. rewrite rev_app_distr in H.
    discriminate H.
  - rewrite Hpath. reflexivity.
Defined.

(** The theorem on two consecutive days. *)
Lemma today_path_distinct_days_witness :
  today_path no_wide (lit "data") (lit "scaleA") (lit "2025-08-05")
  <> today_path no_wide (lit "data") (lit "scaleA") (lit "2025-08-06").
Proof.
  apply (today_path_distinct_days no_wide (lit "data") (lit "scaleA")
           (lit "2025-08-05") (lit "2025-08-06")).
  discriminate.
Defined.

(* ================================================================== *)
(** * Further properties of the header and of the rows *)

Section HeaderMore.

Lemma headers_written_eq (text : pystr) :
  headers_written text
  = if (length text =? 0)%nat || negb (contains HEADER (readline text))
    then [HEADER_LINE] else [].
Proof.
  unfold headers_written. rewrite ensure_header_run. cbn [fs].
  destruct (_ || _); reflexivity.
Qed.

Lemma ensure_header_writes (fp : pystr) (w : world) :
  file_writes (trace (snd (ensure_header fp w)))
  = file_writes (trace w) ++ headers_written (fs w fp).
Proof.
  assert (Happ : forall t e, file_writes (t ++ [e])
                             = file_writes t ++ file_writes [e]).
  { intros t e. induction t as [| x t IH]; [reflexivity |].
    destruct x; cbn; now rewrite ?IH. }
  rewrite headers_written_eq, ensure_header_run.
  destruct (_ || _); cbn [snd trace log].
  - now rewrite Happ.
  - now rewrite app_nil_r.
Qed.

(** More text after a terminated first line changes the first line at
    most by the line feed that completes a carriage return. *)
Lemma readline_app (text more : pystr) :
  has_line_end text = true ->
  readline (text ++ more) = readline text
  \/ readline (text ++ more) = readline text ++ [10%N].
Proof.
  induction text as [| c rest IH]; [discriminate |].
  intros H. cbn [app readline].
  destruct (c =? 10)%N eqn:E10; [now left |].
  destruct (c =? 13)%N eqn:E13.
  - destruct rest as [| d rest]; [| now left].
    cbn [app]. destruct more as [| d more]; [now left |].
    destruct (d =? 10)%N eqn:Ed; [| now left].
    apply N.eqb_eq in Ed. subst d. now right.
  - cbn [has_line_end existsb] in H. rewrite E10, E13 in H. cbn in H.
    destruct (IH H) as [-> | ->]; [now left | now right].
Qed.

Lemma readline_no_end (text rest : pystr) :
  has_line_end text = false ->
  readline (text ++ rest) = text ++ readline rest.
Proof.
  induction text as [| c text IH]; [reflexivity |].
  cbn [has_line_end existsb]. intros H.
  apply orb_false_iff in H as [Hc H]. apply orb_false_iff in Hc as [E10 E13].
  cbn [app readline]. rewrite E10, E13. f_equal. now apply IH.
Qed.

(** The header text holds no line feed, so one at the end of a line
    neither makes nor breaks an occurrence. *)
Lemma occurs_header_snoc (l : pystr) :
  occurs HEADER (l ++ [10%N]) <-> occurs HEADER l.
Proof.
  split; intros (before & after & H).
  - induction after as [| x after' _] using rev_ind.
    + rewrite app_nil_r in H.
      change HEADER with (lit "Time,Weight_g,Weight_x100_g,RawAD" ++ [67%N])
        in H.
      rewrite app_assoc in H. apply app_inj_tail in H as [_ H].
      discriminate H.
    + exists before, after'.
      rewrite !app_assoc in H. apply app_inj_tail in H as [H _].
      now rewrite <- !app_assoc in H.
  - exists before, (after ++ [10%N]). rewrite H. now rewrite <- !app_assoc.
Qed.

Lemma contains_header_snoc (l : pystr) :
  contains HEADER (l ++ [10%N]) = contains HEADER l.
Proof.
  apply eq_true_iff_eq. rewrite !contains_spec. apply occurs_header_snoc.
Qed.

(** X16. What [ensure_header] writes depends on the text of the file
    alone, and, once the first line of the file is terminated, on that
    first line alone: whatever is appended later, the file gets the
    same answer at every opening.  So a file the logger created never
    gets a second header, and a file whose first line is something
    else gets one more header, at its end, each time it is opened.  On
    a file that is not empty and holds no line ending, the header is
    written on the unterminated line itself; from then on that line
    holds the header text and no further header is written. *)
Theorem header_decided_by_first_line (text more : pystr) :
  (forall fp w,
      file_writes (trace (snd (ensure_header fp w)))
      = file_writes (trace w) ++ headers_written (fs w fp))
  /\ (has_line_end text = true ->
      headers_written (text ++ more) = headers_written text)
  /\ (has_line_end text = false -> text <> [] ->
      readline (text ++ HEADER_LINE ++ more) = text ++ HEADER_LINE
      /\ headers_written (text ++ HEADER_LINE ++ more) = []).
Proof.
  split; [exact ensure_header_writes |]. split.
  - intros H. rewrite !headers_written_eq.
    assert (Hlen : (length (text ++ more) =? 0)%nat
                   = (length text =? 0)%nat)
      by (destruct text; [discriminate H | reflexivity]).
    rewrite Hlen.
    destruct (readline_app text more H) as [-> | ->]; [reflexivity |].
    now rewrite contains_header_snoc.
  - intros H Hne.
    assert (Hline : readline (text ++ HEADER_LINE ++ more)
                    = text ++ HEADER_LINE)
      by (rewrite readline_no_end by exact H; reflexivity).
    split; [exact Hline |].
    rewrite headers_written_eq, Hline.
    assert (C : contains HEADER (text ++ HEADER_LINE) = true)
      by (apply contains_spec; now exists text, [13; 10]%N).
    rewrite C. destruct text; [contradiction | reflexivity].
Qed.

End HeaderMore.

(** The theorem on a file with two data rows and no header, and on a
    file that holds an unterminated note. *)
Lemma header_decided_by_first_line_witness :
  let rows := lit "T1,1.000,1.000,5" ++ [13; 10]%N in
  headers_written (rows ++ HEADER_LINE ++ rows) = headers_written rows
  /\ headers_written rows = [HEADER_LINE]
  /\ headers_written (lit "note" ++ HEADER_LINE ++ rows) = [].
Proof.
  cbn zeta. split; [| split].
  - apply (header_decided_by_first_line
             (lit "T1,1.000,1.000,5" ++ [13; 10]%N)
             (HEADER_LINE ++ lit "T1,1.000,1.000,5" ++ [13; 10]%N)).
    reflexivity.
  - reflexivity.
  - apply (header_decided_by_first_line
             (lit "note") (lit "T1,1.000,1.000,5" ++ [13; 10]%N));
      [reflexivity | discriminate].
Defined.

(** ** The cells of a row *)

Section Cells.

Lemma cell_char_plain (c : N) :
  cell_char c = true ->
  ((c =? comma) || (c =? dquote) || (c =? 13) || (c =? 10))%N = false.
Proof.
  unfold cell_char, in_range, comma, dquote. intros H.
  repeat (apply orb_true_iff in H as [H | H]);
    [apply andb_true_iff in H as [H1 H2];
     apply N.leb_le in H1; apply N.leb_le in H2
    | apply N.eqb_eq in H .. ];
    repeat (apply orb_false_iff; split); apply N.eqb_neq; lia.
Qed.

Lemma cells_plain (s : pystr) :
  forallb cell_char s = true -> needs_quotes s = false.
Proof.
  unfold needs_quotes. induction s as [| c s IH]; [reflexivity |].
  cbn [forallb existsb]. intros H. apply andb_true_iff in H as [Hc Hs].
  rewrite (cell_char_plain c Hc). now apply IH.
Qed.

Lemma digits_cells (d : Decimal.uint) :
  forallb cell_char (lit (NilEmpty.string_of_uint d)) = true.
Proof. induction d; cbn; auto. Qed.

Lemma str_of_int_cells (n : Z) : forallb cell_char (str_of_int n) = true.
Proof.
  unfold str_of_int.
  assert (H : forall d, forallb cell_char (lit (NilZero.string_of_uint d))
                        = true).
  { intros d. unfold NilZero.string_of_uint.
    destruct d; try apply digits_cells. reflexivity. }
  destruct (Z.to_int n) as [d | d]; cbn [NilZero.string_of_int].
  - apply H.
  - change (lit (String "-" (NilZero.string_of_uint d)))
      with (45%N :: lit (NilZero.string_of_uint d)).
    cbn [forallb]. now rewrite H.
Qed.

Lemma pad3_cells (n : Z) : forallb cell_char (pad3 n) = true.
Proof.
  unfold pad3. rewrite forallb_app, str_of_int_cells, andb_true_r.
  induction (3 - length (str_of_int n))%nat as [| k IH]; [reflexivity |].
  cbn. exact IH.
Qed.

Lemma format_3f_cells (x : float) : forallb cell_char (format_3f x) = true.
Proof.
  unfold format_3f. destruct (Prim2SF x) as [s | s | | s m e].
  - now destruct s.
  - now destruct s.
  - reflexivity.
  - cbn zeta. rewrite !forallb_app, str_of_int_cells, pad3_cells.
    now destruct s.
Qed.

(** X17. The weight cells and the count cell of a row hold digits, a
    sign, a point and the letters of [nan] and [inf] only, so
    [csv.writer] never quotes them: a row is its timestamp field
    (quoted only if the timestamp holds a comma, a quote or a line
    ending), three commas and the three cells as they were formatted,
    and the line ending. *)
Theorem row_cells_never_quoted (stamp : pystr) (x y : float) (adc : Z) :
  forallb cell_char (format_3f x ++ format_3f y ++ str_of_int adc) = true
  /\ csv_line [stamp; format_3f x; format_3f y; str_of_int adc]
     = csv_field stamp ++ [comma] ++ format_3f x ++ [comma] ++ format_3f y
       ++ [comma] ++ str_of_int adc ++ [13; 10]%N
  /\ (needs_quotes stamp = false -> csv_field stamp = stamp).
Proof.
  split; [| split].
  - now rewrite !forallb_app, !format_3f_cells, str_of_int_cells.
  - unfold csv_line. cbn [map join]. unfold csv_field at 2 3 4.
    rewrite !cells_plain
      by first [apply format_3f_cells | apply str_of_int_cells].
    now rewrite <- !app_assoc.
  - intros H. unfold csv_field. now rewrite H.
Qed.

End Cells.

(** ** The pause between two turns *)

Section Pause.



End Pause.

(* ================================================================== *)
(** * What the loop does to the device, and what it never does *)

Section Adds.

Import MiniScale.

Variable Q : Z -> event -> bool.

Lemma adds_refl (w : world) : adds Q w w.
Proof. split; [reflexivity |]. exists []. now rewrite app_nil_r. Qed.

Lemma adds_trans (w1 w2 w3 : world) :
  adds Q w1 w2 -> adds Q w2 w3 -> adds Q w1 w3.
Proof.
  intros [A1 (t1 & T1 & Q1)] [A2 (t2 & T2 & Q2)]. split; [congruence |].
  exists (t1 ++ t2). split.
  - now rewrite T2, T1, app_assoc.
  - rewrite forallb_app, Q1. rewrite A1 in Q2. now rewrite Q2.
Qed.

Lemma adds_one (w w' : world) (e : event) :
  addr w' = addr w -> trace w' = trace w ++ [e] -> Q (addr w) e = true ->
  adds Q w w'.
Proof.
  intros Ha Ht Hq. split; [exact Ha |]. exists [e]. split; [exact Ht |].
  cbn. now rewrite Hq.
Qed.

Lemma adds_emit (e : event) :
  (forall dev, Q dev e = true) -> framed (adds Q) (emit e).
Proof. intros H w. apply adds_one with e; auto. Qed.

Lemma adds_read_block (reg : Z) (n : nat) :
  (forall dev, Q dev (I2cRead dev reg n) = true) ->
  framed (adds Q) (_read_block reg n).
Proof.
  intros H w. apply adds_one with (I2cRead (addr w) reg n); auto;
    rewrite read_block_run;
    destruct (bus w reg) as [| [| data] rest]; reflexivity.
Qed.

Lemma adds_write_block (reg : Z) (data : list Z) :
  (forall dev, Q dev (I2cWrite dev reg data) = true) ->
  framed (adds Q) (_write_block reg data).
Proof.
  intros H w. destruct (write_block_run reg data w) as (Ht & Ha & _).
  now apply adds_one with (I2cWrite (addr w) reg data).
Qed.

Lemma adds_file_append (path text : pystr) :
  (forall dev, Q dev (FileWrite path text) = true) ->
  framed (adds Q) (file_append path text).
Proof. intros H w. apply adds_one with (FileWrite path text); auto. Qed.

Lemma adds_weaken (Q' : Z -> event -> bool) (w w' : world) :
  (forall dev e, Q' dev e = true -> Q dev e = true) ->
  adds Q' w w' -> adds Q w w'.
Proof.
  intros H [Ha (t & Ht & Hq)]. split; [exact Ha |]. exists t.
  split; [exact Ht |]. rewrite forallb_forall in *. auto.
Qed.

End Adds.

(** One step of a proof that a piece of code adds allowed events
    only. *)
Ltac adds_step Q :=
  first [ apply (framed_ret (adds Q) (adds_refl Q))
        | apply (framed_lift (adds Q) (adds_refl Q))
        | apply (framed_if (adds Q))
        | apply (framed_bind (adds Q) (adds_trans Q)); [| intros ?]
        | apply (framed_try (adds Q) (adds_trans Q)); [| intros ?] ].

Section LoopEvents.

Import MiniScale.

Variable isalnum_wide : N -> bool.

Lemma button_event_poll (dev : Z) :
  button_event dev (I2cRead dev REG_BUTTON 1) = true.
Proof. cbn. now rewrite Z.eqb_refl. Qed.

Lemma button_event_tare (dev : Z) :
  button_event dev (I2cWrite dev REG_OFFSET_TARE [1]) = true.
Proof. cbn. now rewrite Z.eqb_refl. Qed.

Lemma button_poll : framed (adds button_event) get_button_pressed.
Proof.
  unfold get_button_pressed.
  adds_step button_event;
    [apply adds_read_block, button_event_poll |].
  repeat adds_step button_event.
Qed.

Lemma button_wait_release_loop (fuel : nat) :
  framed (adds button_event) (wait_release_loop fuel).
Proof.
  induction fuel as [| fuel IH]; [adds_step button_event |].
  cbn [wait_release_loop]. unfold sleep.
  repeat first [ apply button_poll | apply IH
               | apply adds_emit; intros; reflexivity
               | adds_step button_event ].
Qed.

Lemma button_wait_release : framed (adds button_event) wait_release.
Proof. intros w. unfold wait_release. apply button_wait_release_loop. Qed.

(** The button service adds its own events only. *)
Lemma button_tare_events (a : args) (t : float) (st : locals) :
  framed (adds button_event) (button_tare a t st).
Proof.
  unfold button_tare, tare, print, sleep.
  repeat first [ apply button_poll | apply button_wait_release
               | apply adds_write_block, button_event_tare
               | apply adds_emit; intros; reflexivity
               | adds_step button_event ].
Qed.









End LoopEvents.

(* ================================================================== *)
(** * What the loop does to the files *)

Section LoopFiles.

Import MiniScale.

Variable isalnum_wide : N -> bool.

Lemma str_eqb_neq (p q : pystr) : p <> q -> str_eqb p q = false.
Proof.
  intros H. destruct (str_eqb p q) eqn:E; [| reflexivity].
  apply str_eqb_eq in E. contradiction.
Qed.

(** The rotation, run: it returns with the path of the day as the
    current one, leaves the device alone, and adds to the file of the
    day the header of the turn and nothing to the other files. *)
Lemma rotate_files (a : args) (c : clock) (st : locals) (w : world) :
  let path := today_path isalnum_wide (data_dir a) (name a) (day c) in
  exists w1,
    rotate isalnum_wide a c st w
    = (Ret (Locals path (prev_pressed st) (last_sample_time st)), w1)
    /\ same_device w w1
    /\ fs w1 path
       = fs w path ++ turn_header path (current_path st) (fs w path)
    /\ (forall p, p <> path -> fs w1 p = fs w p)
    /\ adds (fun _ e => negb (is_read_warning e)) w w1.
Proof.
  cbn zeta. unfold rotate, turn_header.
  set (path := today_path isalnum_wide (data_dir a) (name a) (day c)).
  destruct (str_eqb path (current_path st)) eqn:E; cbn [negb].
  - apply str_eqb_eq in E. exists w. rewrite E. destruct st. cbn.
    rewrite app_nil_r.
    split; [reflexivity |]. split; [now split |]. split; [reflexivity |].
    split; [reflexivity | apply adds_refl].
  - unfold bind. rewrite ensure_header_run, headers_written_eq.
    destruct (_ || _).
    + eexists. split; [reflexivity |]. split; [now split |].
      cbn [fs log set_file concat]. rewrite str_eqb_refl, app_nil_r.
      split; [reflexivity |]. split.
      * intros p Hp. now rewrite str_eqb_neq.
      * now apply adds_one with (FileWrite path HEADER_LINE).
    + exists w. cbn [concat]. rewrite app_nil_r.
      split; [reflexivity |]. split; [now split |]. split; [reflexivity |].
      split; [reflexivity | apply adds_refl].
Qed.

(** The sample is always taken: what the reads raise is caught. *)
Lemma sample_returns (a : args) (w : world) :
  exists s w2, sample a w = (Ret s, w2) /\ fs w2 = fs w.
Proof.
  pose proof (framed_sample same_files same_files_refl same_files_trans
                same_files_emit same_files_transact a w) as Hfs.
  assert (Ht : total (sample a)).
  { unfold sample. apply total_try. intros e.
    apply total_bind; [apply total_emit | intros; apply total_ret]. }
  destruct (Ht w) as [s Hs].
  destruct (sample a w) as [o w2]. cbn in Hs, Hfs. subst o.
  now exists s, w2.
Qed.

(** A turn of the loop, from the writing of its row on. *)
Lemma tick_unfold (a : args) (c : clock) (st st1 : locals) (w w1 w2 : world)
      (x y : float) (adc : Z) :
  rotate isalnum_wide a c st w = (Ret st1, w1) ->
  sample a w1 = (Ret (x, y, adc), w2) ->
  tick isalnum_wide a c st w
  = (writerow (current_path st1)
              [ts c; format_3f x; format_3f y; str_of_int adc] ;;
     (if print_flag a then print InfoSample else ret tt) ;;
     st' <- button_tare a (now c) st1 ;;
     sleep (max0 (interval a - BTN_SAMPLE_SECS)) ;;
     ret st') w2.
Proof.
  intros H1 H2. unfold tick.
  now rewrite (bind_ret_run _ H1), (bind_ret_run _ H2).
Qed.

Lemma after_row_run (a : args) (c : clock) (st1 : locals) (row : list pystr)
      (w2 : world) :
  exists st' w',
    (writerow (current_path st1) row ;;
     (if print_flag a then print InfoSample else ret tt) ;;
     st' <- button_tare a (now c) st1 ;;
     sleep (max0 (interval a - BTN_SAMPLE_SECS)) ;;
     ret st') w2
    = (match sleep_check (max0 (interval a - BTN_SAMPLE_SECS)) with
       | Ret _ => Ret st'
       | Raise e => Raise e
       end, w')
    /\ current_path st' = current_path st1
    /\ fs w' (current_path st1) = fs w2 (current_path st1) ++ csv_line row
    /\ (forall p, p <> current_path st1 -> fs w' p = fs w2 p).
Proof.
  set (path := current_path st1).
  set (w3 := log (FileWrite path (csv_line row))
                 (set_file path (fs w2 path ++ csv_line row) w2)).
  set (w4 := if print_flag a then log (Printed InfoSample) w3 else w3).
  assert (Hfs4 : fs w4 = fs w3) by (unfold w4; now destruct (print_flag a)).
  destruct (button_tare_returns a (now c) st1 w4)
    as (st' & w5 & Hbtn & Hpath & Hfs5).
  exists st',
    (match sleep_check (max0 (interval a - BTN_SAMPLE_SECS)) with
     | Ret _ => log (Slept (max0 (interval a - BTN_SAMPLE_SECS))) w5
     | Raise _ => w5
     end).
  assert (Hfs6 : fs (match sleep_check (max0 (interval a - BTN_SAMPLE_SECS))
                     with
                     | Ret _ =>
                         log (Slept (max0 (interval a - BTN_SAMPLE_SECS))) w5
                     | Raise _ => w5
                     end) = fs w5)
    by (destruct (sleep_check _); reflexivity).
  split.
  - assert (Hrow : forall k : unit -> M locals,
               bind (writerow path row) k w2 = k tt w3)
      by reflexivity.
    rewrite Hrow.
    assert (Hprint : forall k : unit -> M locals,
               bind (if print_flag a then print InfoSample else ret tt) k w3
               = k tt w4)
      by (intros k; unfold w4; now destruct (print_flag a)).
    rewrite Hprint, (bind_ret_run _ Hbtn).
    unfold bind. rewrite sleep_run.
    destruct (sleep_check _) as [[] | e]; reflexivity.
  - split; [exact Hpath |]. rewrite Hfs6, Hfs5, Hfs4.
    unfold w3. cbn [fs log set_file]. split.
    + now rewrite str_eqb_refl.
    + intros p Hp. now rewrite str_eqb_neq.
Qed.

(** A turn of the loop, run. *)
Lemma tick_run (a : args) (c : clock) (st : locals) (w : world) :
  let path := today_path isalnum_wide (data_dir a) (name a) (day c) in
  exists st' w' w1 w2 x y adc,
    tick isalnum_wide a c st w
    = (match sleep_check (max0 (interval a - BTN_SAMPLE_SECS)) with
       | Ret _ => Ret st'
       | Raise e => Raise e
       end, w')
    /\ current_path st' = path
    /\ same_device w w1
    /\ adds (fun _ e => negb (is_read_warning e)) w w1
    /\ sample a w1 = (Ret (x, y, adc), w2)
    /\ fs w' path
       = fs w path ++ turn_header path (current_path st) (fs w path)
         ++ csv_line [ts c; format_3f x; format_3f y; str_of_int adc]
    /\ (forall p, p <> path -> fs w' p = fs w p).
Proof.
  cbn zeta.
  destruct (rotate_files a c st w) as (w1 & Hrot & Hdev & Hfs1 & Hoth1 & Hq).
  set (path := today_path isalnum_wide (data_dir a) (name a) (day c)) in *.
  set (st1 := Locals path (prev_pressed st) (last_sample_time st)) in *.
  destruct (sample_returns a w1) as ([[x y] adc] & w2 & Hsample & Hfs2).
  destruct (after_row_run a c st1
              [ts c; format_3f x; format_3f y; str_of_int adc] w2)
    as (st' & w' & Hrest & Hpath & Hfs & Hoth).
  cbn [current_path st1] in Hpath, Hfs, Hoth.
  exists st', w', w1, w2, x, y, adc.
  rewrite (tick_unfold a c st st1 w w1 w2 x y adc Hrot Hsample).
  split; [exact Hrest |]. split; [exact Hpath |]. split; [exact Hdev |].
  split; [exact Hq |]. split; [exact Hsample |]. split.
  - now rewrite Hfs, Hfs2, Hfs1, <- app_assoc.
  - intros p Hp. now rewrite Hoth, Hfs2, Hoth1.
Qed.

(** X19. A turn of the loop adds to the file of the day the header, if
    the day has changed and the file needs one, and then one row of the
    timestamp and three formatted cells; what the file held before
    stays in front of them, and no other file is touched: the file of
    the day before is left as it was. *)
Theorem turn_appends_one_row
        (a : args) (c : clock) (st : locals) (w : world) :
  let path := today_path isalnum_wide (data_dir a) (name a) (day c) in
  let w' := snd (tick isalnum_wide a c st w) in
  (exists x y adc,
      fs w' path
      = fs w path ++ turn_header path (current_path st) (fs w path)
        ++ csv_line [ts c; format_3f x; format_3f y; str_of_int adc])
  /\ (forall p, p <> path -> fs w' p = fs w p).
Proof.
  cbn zeta.
  destruct (tick_run a c st w)
    as (st' & w' & w1 & w2 & x & y & adc & Htick & _ & _ & _ & _ & Hfs & Hoth).
  rewrite Htick. cbn [snd]. split; [| exact Hoth].
  now exists x, y, adc.
Qed.

Lemma main_loop_files (a : args) (cs : list clock) (st : locals) (w : world)
      (p : pystr) :
  exists more,
    fs (snd (main_loop isalnum_wide a cs st w)) p = fs w p ++ more
    /\ (~ In p (day_paths isalnum_wide a cs) -> more = []).
Proof.
  revert st w. induction cs as [| c cs IH]; intros st w.
  - exists []. cbn. now rewrite app_nil_r.
  - cbn [main_loop day_paths map].
    destruct (tick_run a c st w)
      as (st' & w' & w1 & w2 & x & y & adc & Htick & _ & _ & _ & _
          & Hfs & Hoth).
    assert (Hnext : exists more,
               fs (snd ((st1 <- tick isalnum_wide a c st ;;
                         main_loop isalnum_wide a cs st1) w)) p
               = fs w' p ++ more
               /\ (~ In p (day_paths isalnum_wide a cs) -> more = [])).
    { unfold bind. rewrite Htick.
      destruct (sleep_check _) as [[] | e]; [apply IH |].
      exists []. cbn [snd]. now rewrite app_nil_r. }
    destruct Hnext as (more & Hmore & Hnone).
    set (path := today_path isalnum_wide (data_dir a) (name a) (day c)) in *.
    destruct (str_eqb p path) eqn:E.
    + apply str_eqb_eq in E. subst p. eexists. split.
      * rewrite Hmore, Hfs, <- app_assoc. reflexivity.
      * intros Hin. exfalso. apply Hin. now left.
    + assert (Hp : p <> path)
        by (intros ->; now rewrite str_eqb_refl in E).
      exists more. split; [now rewrite Hmore, Hoth |].
      intros Hin. apply Hnone. intros H. apply Hin. now right.
Qed.

(** X20. The logger only appends, and only to the files of the days it
    sees: after any run every file starts with the text it held before
    the run, and a file that is the file of none of the days of the run
    holds that text and nothing more. *)
Theorem loop_only_appends_to_day_files
        (a : args) (day0 : pystr) (cs : list clock) (w : world) (p : pystr) :
  exists more,
    fs (snd (run isalnum_wide a day0 cs w)) p = fs w p ++ more
    /\ (~ In p (day_paths isalnum_wide a (Clock day0 [] 0 :: cs)) ->
        more = []).
Proof.
  unfold run. cbn [day_paths map day].
  set (path := today_path isalnum_wide (data_dir a) (name a) day0).
  assert (Hhdr : exists w1 hdr,
             ensure_header path w = (Ret tt, w1)
             /\ fs w1 path = fs w path ++ hdr
             /\ forall q, q <> path -> fs w1 q = fs w q).
  { rewrite ensure_header_run. destruct (_ || _).
    - eexists. exists HEADER_LINE. split; [reflexivity |].
      cbn [fs log set_file]. rewrite str_eqb_refl. split; [reflexivity |].
      intros q Hq. now rewrite str_eqb_neq.
    - exists w, []. rewrite app_nil_r. auto. }
  destruct Hhdr as (w1 & hdr & Hrun & Hfs & Hoth).
  rewrite (bind_ret_run _ Hrun).
  destruct (main_loop_files a cs (Locals path false 0) w1 p)
    as (more & Hmore & Hnone).
  destruct (str_eqb p path) eqn:E.
  - apply str_eqb_eq in E. subst p. exists (hdr ++ more). split.
    + now rewrite Hmore, Hfs, <- app_assoc.
    + intros Hin. exfalso. apply Hin. now left.
  - assert (Hp : p <> path) by (intros ->; now rewrite str_eqb_refl in E).
    exists more. split; [now rewrite Hmore, Hoth |].
    intros Hin. apply Hnone. intros H. apply Hin. now right.
Qed.


(** ** A turn of the loop with answered reads *)

Lemma read_block_answer (reg : Z) (n : nat) (data : list Z)
      (rest : list reply) (w : world) :
  bus w reg = Ack data :: rest -> all_bytes data ->
  _read_block reg n w
  = (Ret data, set_bus reg rest (log (I2cRead (addr w) reg n) w)).
Proof.
  intros Hbus Hdata. rewrite read_block_run, Hbus. unfold bytes_of.
  now rewrite Hdata.
Qed.

Lemma scaled_decodes (data : list Z) :
  all_bytes data -> length data = 4%nat ->
  int_truediv_float (from_bytes_signed data) 100
  = Ret (PrimFloat.div (Z2float (from_bytes_signed data)) 100).
Proof.
  intros Hb Hlen.
  assert (Hne : data <> []) by (destruct data; discriminate).
  destruct (from_bytes_signed_range data Hb Hne) as [Hr _].
  rewrite Hlen in Hr. change (8 * Z.of_nat 4 - 1) with 31 in Hr.
  unfold int_truediv_float, obind.
  rewrite int_to_float_in_range; [reflexivity |].
  assert (2 ^ 31 < float_overflow_bound) by (vm_compute; reflexivity).
  lia.
Qed.

Lemma unpack_f32_four (data : list Z) :
  length data = 4%nat -> exists f, unpack_f32 data = Ret f.
Proof.
  intros Hlen. unfold unpack_f32. rewrite Hlen. cbn [Nat.eqb negb].
  eexists. reflexivity.
Qed.

(** The sample when the three registers answer. *)
Lemma sample_answered (a : args) (w : world) (bf bi ba : list Z)
      (qf qi qa : list reply) (f : float) :
  bus w REG_WEIGHT_F32 = Ack bf :: qf ->
  bus w REG_WEIGHT_X100_I32 = Ack bi :: qi ->
  bus w REG_RAW_ADC = Ack ba :: qa ->
  all_bytes bf -> all_bytes bi -> all_bytes ba ->
  unpack_f32 bf = Ret f -> length bi = 4%nat ->
  exists w2,
    sample a w
    = (Ret (PrimFloat.mul f (sign a),
            PrimFloat.mul
              (PrimFloat.div (Z2float (from_bytes_signed bi)) 100) (sign a),
            from_bytes_signed ba), w2)
    /\ adds (fun _ e => negb (is_read_warning e)) w w2.
Proof.
  intros Hf Hi Ha Bf Bi Ba Uf Li.
  set (w1 := set_bus REG_WEIGHT_F32 qf
                     (log (I2cRead (addr w) REG_WEIGHT_F32 4) w)).
  set (w2 := set_bus REG_WEIGHT_X100_I32 qi
                     (log (I2cRead (addr w1) REG_WEIGHT_X100_I32 4) w1)).
  set (w3 := set_bus REG_RAW_ADC qa
                     (log (I2cRead (addr w2) REG_RAW_ADC 4) w2)).
  assert (E1 : get_weight_float w = (Ret f, w1)).
  { unfold get_weight_float.
    rewrite (bind_ret_run _ (read_block_answer _ 4 _ _ _ Hf Bf)).
    unfold lift. now rewrite Uf. }
  assert (E2 : get_weight_int w1
               = (Ret (PrimFloat.div (Z2float (from_bytes_signed bi)) 100),
                  w2)).
  { unfold get_weight_int.
    assert (Hi1 : bus w1 REG_WEIGHT_X100_I32 = Ack bi :: qi) by exact Hi.
    rewrite (bind_ret_run _ (read_block_answer _ 4 _ _ _ Hi1 Bi)).
    unfold lift. now rewrite (scaled_decodes bi Bi Li). }
  assert (E3 : get_raw_adc w2 = (Ret (from_bytes_signed ba), w3)).
  { unfold get_raw_adc.
    assert (Ha2 : bus w2 REG_RAW_ADC = Ack ba :: qa) by exact Ha.
    now rewrite (bind_ret_run _ (read_block_answer _ 4 _ _ _ Ha2 Ba)). }
  exists w3. split.
  - unfold sample, try_except, read_weights.
    now rewrite (bind_ret_run _ E1), (bind_ret_run _ E2),
      (bind_ret_run _ E3).
  - split; [reflexivity |].
    exists [I2cRead (addr w) REG_WEIGHT_F32 4;
            I2cRead (addr w) REG_WEIGHT_X100_I32 4;
            I2cRead (addr w) REG_RAW_ADC 4].
    split; [| reflexivity].
    cbn [trace w3 w2 w1 set_bus log addr]. now rewrite <- !app_assoc.
Qed.

(** From the writing of the row on, a turn prints no warning of a
    failed read. *)
Lemma after_row_quiet (a : args) (c : clock) (st1 : locals)
      (row : list pystr) :
  framed (adds (fun _ e => negb (is_read_warning e)))
    (writerow (current_path st1) row ;;
     (if print_flag a then print InfoSample else ret tt) ;;
     st' <- button_tare a (now c) st1 ;;
     sleep (max0 (interval a - BTN_SAMPLE_SECS)) ;;
     ret st').
Proof.
  set (Q := fun (_ : Z) e => negb (is_read_warning e)).
  unfold writerow, print, sleep.
  adds_step Q; [apply adds_file_append; intros; reflexivity |].
  adds_step Q;
    [apply (framed_if (adds Q));
     [apply adds_emit; intros; reflexivity | adds_step Q] |].
  adds_step Q.
  { intros w. eapply adds_weaken; [| apply button_tare_events].
    intros dev [] H; try reflexivity.
    cbn in H. unfold Q. cbn. now destruct m. }
  adds_step Q;
    [repeat first [apply adds_emit; intros; reflexivity | adds_step Q] |].
  adds_step Q.
Qed.

(** X21. When the two weight registers and the count register answer
    with four bytes each, the row of the turn holds what they decode
    to: the float weight and the scaled weight, each multiplied by the
    sign and formatted to three places, and the count.  No sentinel
    value is written and no warning of a failed read is printed,
    whatever the button does. *)
Theorem answered_reads_write_decoded_row
        (a : args) (c : clock) (st : locals) (w : world)
        (bf bi ba : list Z) (qf qi qa : list reply) :
  bus w REG_WEIGHT_F32 = Ack bf :: qf ->
  bus w REG_WEIGHT_X100_I32 = Ack bi :: qi ->
  bus w REG_RAW_ADC = Ack ba :: qa ->
  all_bytes bf /\ length bf = 4%nat ->
  all_bytes bi /\ length bi = 4%nat ->
  all_bytes ba /\ length ba = 4%nat ->
  let path := today_path isalnum_wide (data_dir a) (name a) (day c) in
  let w' := snd (tick isalnum_wide a c st w) in
  exists f,
    unpack_f32 bf = Ret f
    /\ fs w' path
       = fs w path ++ turn_header path (current_path st) (fs w path)
         ++ csv_line
              [ts c;
               format_3f (PrimFloat.mul f (sign a));
               format_3f
                 (PrimFloat.mul
                    (PrimFloat.div (Z2float (from_bytes_signed bi)) 100)
                    (sign a));
               str_of_int (from_bytes_signed ba)]
    /\ exists t,
         trace w' = trace w ++ t
         /\ forallb (fun e => negb (is_read_warning e)) t = true.
Proof.
  intros Hf Hi Ha [Bf Lf] [Bi Li] [Ba La]. cbn zeta.
  destruct (unpack_f32_four bf Lf) as [f Uf]. exists f.
  split; [exact Uf |].
  destruct (rotate_files a c st w) as (w1 & Hrot & [Hbus Haddr] & Hfs1 & _ & Q1).
  set (path := today_path isalnum_wide (data_dir a) (name a) (day c)) in *.
  set (st1 := Locals path (prev_pressed st) (last_sample_time st)) in *.
  rewrite Hbus in Hf, Hi, Ha.
  destruct (sample_answered a w1 bf bi ba qf qi qa f Hf Hi Ha Bf Bi Ba Uf Li)
    as (w2 & Hsample & Q2).
  rewrite (tick_unfold a c st st1 w w1 w2 _ _ _ Hrot Hsample).
  match goal with
  | |- context [csv_line ?r] => set (row := r)
  end.
  destruct (after_row_run a c st1 row w2) as (st' & w' & Hrest & _ & Hfs & _).
  pose proof (after_row_quiet a c st1 row w2) as Q3.
  rewrite Hrest in *. cbn [snd] in *. cbn [current_path st1] in Hfs.
  split.
  - rewrite Hfs.
    pose proof (sample_returns a w1) as (s & w2' & Hs & Hfs2).
    rewrite Hsample in Hs. injection Hs as _ <-.
    now rewrite Hfs2, Hfs1, <- app_assoc.
  - pose proof (adds_trans _ _ _ _ (adds_trans _ _ _ _ Q1 Q2) Q3)
      as [_ (t & Ht & Hq)].
    now exists t.
Qed.

End LoopFiles.


(** The theorem on the first turn against a device that reads a steady
    25 g, sign 1: the row is [25.000,25.000,197121]. *)
Lemma answered_reads_witness :
  let c := Clock (lit "2025-08-05") (lit "2025-08-05T12:00:00") 1000 in
  let st := Locals (lit "data/weight_data_2025-08-05.csv") false 0 in
  let w' := snd (tick no_wide bench_args c st (device [] 1)) in
  fs w' (lit "data/weight_data_2025-08-05.csv")
  = lit "2025-08-05T12:00:00,25.000,25.000,197121" ++ [13; 10]%N
  /\ forallb (fun e => negb (is_read_warning e)) (trace w') = true.
Proof.
  cbn zeta.
  destruct (answered_reads_write_decoded_row no_wide bench_args
              (Clock (lit "2025-08-05") (lit "2025-08-05T12:00:00") 1000)
              (Locals (lit "data/weight_data_2025-08-05.csv") false 0)
              (device [] 1)
              [0; 0; 200; 65] [196; 9; 0; 0] [1; 2; 3; 0] [] [] []
              eq_refl eq_refl eq_refl
              (conj eq_refl eq_refl) (conj eq_refl eq_refl)
              (conj eq_refl eq_refl))
    as (f & Uf & Hfs & t & Ht & Hq).
  injection Uf as <-. split.
  - etransitivity; [exact Hfs | vm_compute; reflexivity].
  - rewrite Ht. exact Hq.
Defined.

(* ================================================================== *)
(** * The reads of the driver *)

Section Getters.

Import MiniScale.

(** A read followed by a decoding that does not touch the world. *)
Lemma reads_once_decoded {A} (reg : Z) (n : nat) (k : list Z -> M A) :
  (forall b w1, snd (k b w1) = w1) ->
  reads_once (bind (_read_block reg n) k) reg n.
Proof.
  intros Hk w. cbn zeta.
  assert (Hsnd : snd (bind (_read_block reg n) k w)
                 = snd (_read_block reg n w)).
  { unfold bind. destruct (_read_block reg n w) as [[b | e] w1]; cbn;
      [apply Hk | reflexivity]. }
  rewrite Hsnd.
  split; [apply read_block_trace |].
  split; [rewrite read_block_run;
          destruct (bus w reg) as [| [| data] rest]; reflexivity |].
  split; [rewrite read_block_run;
          destruct (bus w reg) as [| [| data] rest]; reflexivity |].
  split; [intros r Hr; now apply read_block_other |].
  intros Hn. destruct (read_block_nacked reg n w Hn) as [w1 Hw1].
  now rewrite (bind_raise_run _ Hw1).
Qed.

Lemma pure_lift {A} (o : outcome A) (w : world) : snd (lift o w) = w.
Proof. reflexivity. Qed.

Lemma pure_three (b : list Z) (w : world) :
  snd ((b0 <- lift (index b 0) ;;
        b1 <- lift (index b 1) ;;
        b2 <- lift (index b 2) ;;
        ret (b0, b1, b2)) w) = w.
Proof.
  unfold bind, lift, ret.
  destruct (index b 0); [| reflexivity].
  destruct (index b 1); [| reflexivity].
  destruct (index b 2); reflexivity.
Qed.

(** X22. Each read of the driver is one transaction on the bus, of the
    register and of the width of the register map: it is not tried
    again when it fails, the failure comes out as the [OSError] it is,
    and the other registers, the address of the client and the files
    are left alone.  [get_weight] reads the scaled weight when asked
    for ["int"] and the float weight for anything else. *)
Theorem getters_read_once :
  reads_once get_raw_adc REG_RAW_ADC 4
  /\ reads_once get_weight_float REG_WEIGHT_F32 4
  /\ reads_once get_weight_int REG_WEIGHT_X100_I32 4
  /\ (forall prefer,
        reads_once (get_weight prefer)
                   (if str_eqb prefer (lit "int")
                    then REG_WEIGHT_X100_I32 else REG_WEIGHT_F32) 4)
  /\ reads_once get_gap REG_GAP_F32 4
  /\ reads_once get_led REG_LED_RGB 3
  /\ reads_once get_button_pressed REG_BUTTON 1
  /\ reads_once get_filters REG_FILTERS 3
  /\ reads_once get_fw_version REG_FW_VERSION 1
  /\ reads_once get_i2c_address REG_I2C_ADDRESS 1.
Proof.
  assert (Hint : reads_once get_weight_int REG_WEIGHT_X100_I32 4)
    by (apply reads_once_decoded; reflexivity).
  assert (Hfloat : reads_once get_weight_float REG_WEIGHT_F32 4)
    by (apply reads_once_decoded; reflexivity).
  split; [apply reads_once_decoded; reflexivity |].
  split; [exact Hfloat |]. split; [exact Hint |].
  split.
  { intros prefer. unfold get_weight.
    destruct (str_eqb prefer (lit "int")); assumption. }
  split; [apply reads_once_decoded; reflexivity |].
  split; [apply reads_once_decoded; intros; apply pure_three |].
  split.
  { apply reads_once_decoded. intros b w1. unfold bind, lift, ret.
    destruct (index b 0); reflexivity. }
  split; [apply reads_once_decoded; intros; apply pure_three |].
  split; apply reads_once_decoded; reflexivity.
Qed.

End Getters.
